(** * wordpress-auto-publisher: a shallow embedding of the aggregation
      pipeline and of the publishing loop

    Sources embedded: [news_fetcher.py] (NewsItem, AINewsFetcher),
    [wp_publisher.py] (WordPressPublisher) and [auto_publish.py]
    (AutoPublisher).

    Conventions.
    - A Python [str] is the list of its code points ([pystr]); literals are
      written as UTF-8 text and decoded by [u].
    - A naive [datetime] is its position on the proleptic Gregorian time
      line, in microseconds since 0001-01-01 00:00:00; comparison of
      datetimes is comparison of these numbers.
    - Everything outside the repository is an explicit input: the wall clock
      ([clock], read by [datetime_now]), the feed parser
      ([feedparser_parse]), the HTTP layer ([requests_send]) and the
      table-driven string functions ([str_lower], [html_unescape],
      [md5_hexdigest]).
    - Console output is not modelled; expressions evaluated inside a
      [print] that can raise are kept. *)

From Stdlib Require Import ZArith Lia Sorted.
From stdpp Require Import base tactics option list sets gmap strings.

Set Default Proof Using "Type".
Set Warnings "-register-all,-clear-no-such-hyp".

(** ** Python strings *)

Abbreviation pystr := (list N) (only parsing).

Definition bytes_of_string (s : string) : list N :=
  map Ascii.N_of_ascii (String.list_ascii_of_string s).

(** UTF-8 decoding of a well-formed byte sequence, used for literals only. *)
Fixpoint utf8_go (acc : N) (need : nat) (bs : list N) : pystr :=
  match bs with
  | [] => []
  | b :: bs' =>
      match need with
      | O =>
          if (b <? 128)%N then b :: utf8_go 0%N 0 bs'
          else if (b <? 224)%N then utf8_go (b mod 32)%N 1 bs'
          else if (b <? 240)%N then utf8_go (b mod 16)%N 2 bs'
          else utf8_go (b mod 8)%N 3 bs'
      | S O => (acc * 64 + b mod 64)%N :: utf8_go 0%N 0 bs'
      | S n => utf8_go (acc * 64 + b mod 64)%N n bs'
      end
  end.

Definition u (s : string) : pystr := utf8_go 0%N 0 (bytes_of_string s).
Arguments u : simpl never.

(** [str(n)] for a non-negative integer. *)
Fixpoint digits_go (fuel : nat) (n : N) (acc : pystr) : pystr :=
  match fuel with
  | O => acc
  | S f =>
      let acc' := (48 + n mod 10)%N :: acc in
      if (n <? 10)%N then acc' else digits_go f (n / 10)%N acc'
  end.

Definition str_of_N (n : N) : pystr :=
  digits_go (S (N.to_nat (N.log2 n))) n [].

Definition str_of_Z (z : Z) : pystr :=
  if (z <? 0)%Z then 45%N :: str_of_N (Z.to_N (- z)) else str_of_N (Z.to_N z).

Definition str_of_nat (n : nat) : pystr := str_of_N (N.of_nat n).

(** [%02d] and [%04d]. *)
Definition zero_pad (width : nat) (s : pystr) : pystr :=
  replicate (width - length s) 48%N ++ s.

(** [needle in hay] on strings. *)
Fixpoint is_prefix (p s : pystr) : bool :=
  match p, s with
  | [], _ => true
  | _ :: _, [] => false
  | a :: p', b :: s' => (a =? b)%N && is_prefix p' s'
  end.

Fixpoint str_contains (needle hay : pystr) : bool :=
  is_prefix needle hay ||
  match hay with
  | [] => false
  | _ :: hay' => str_contains needle hay'
  end.

Definition dquote : pystr := [34%N].

(** [sep.join(parts)] *)
Fixpoint str_join (sep : pystr) (parts : list pystr) : pystr :=
  match parts with
  | [] => []
  | [p] => p
  | p :: rest => p ++ sep ++ str_join sep rest
  end.

(** ** Python slices

    [l[start:stop]] with the interpreter's treatment of negative and
    out-of-range bounds. *)

Definition clamp_index (len i : Z) : Z :=
  if (i <? 0)%Z then Z.max 0 (len + i) else Z.min i len.

Definition py_slice {A} (l : list A) (start stop : Z) : list A :=
  let n := Z.of_nat (length l) in
  let a := clamp_index n start in
  let b := clamp_index n stop in
  take (Z.to_nat (b - a)) (drop (Z.to_nat a) l).

(** ** datetime *)

Module DateTime.
Local Open Scope Z_scope.

Abbreviation datetime := Z (only parsing).

Record struct_time := {
  tm_year : Z; tm_mon : Z; tm_mday : Z;
  tm_hour : Z; tm_min : Z; tm_sec : Z
}.

Definition MAXORDINAL : Z := 3652059.
Definition US_PER_SECOND : Z := 1000000.
Definition US_PER_DAY : Z := 86400 * US_PER_SECOND.

Definition is_leap (y : Z) : bool :=
  (y mod 4 =? 0) && (negb (y mod 100 =? 0) || (y mod 400 =? 0)).

Definition days_before_year (y : Z) : Z :=
  let p := y - 1 in p * 365 + p / 4 - p / 100 + p / 400.

Definition DAYS_IN_MONTH : list Z :=
  [31; 28; 31; 30; 31; 30; 31; 31; 30; 31; 30; 31].

Definition days_in_month (y m : Z) : Z :=
  if (m =? 2) && is_leap y then 29
  else nth (Z.to_nat (m - 1)) DAYS_IN_MONTH 0.

Definition days_before_month (y m : Z) : Z :=
  foldr Z.add 0 (take (Z.to_nat (m - 1)) DAYS_IN_MONTH)
  + (if (2 <? m) && is_leap y then 1 else 0).

Definition ymd2ord (y m d : Z) : Z :=
  days_before_year y + days_before_month y m + d.

(** The field checks of the [datetime(...)] constructor. *)
Definition valid_fields (t : struct_time) : bool :=
  (1 <=? tm_year t) && (tm_year t <=? 9999) &&
  (1 <=? tm_mon t) && (tm_mon t <=? 12) &&
  (1 <=? tm_mday t) && (tm_mday t <=? days_in_month (tm_year t) (tm_mon t)) &&
  (0 <=? tm_hour t) && (tm_hour t <=? 23) &&
  (0 <=? tm_min t) && (tm_min t <=? 59) &&
  (0 <=? tm_sec t) && (tm_sec t <=? 59).

Definition of_fields (t : struct_time) : datetime :=
  (((ymd2ord (tm_year t) (tm_mon t) (tm_mday t) - 1) * 86400
    + tm_hour t * 3600 + tm_min t * 60 + tm_sec t) * US_PER_SECOND).

Definition in_range (t : datetime) : bool :=
  (0 <=? t) && (t <? MAXORDINAL * US_PER_DAY).

(** Calendar date of a day ordinal (the standard library's [_ord2ymd]). *)
Definition ord2ymd (ordinal : Z) : Z * Z * Z :=
  let n := ordinal - 1 in
  let n400 := n / 146097 in let n := n mod 146097 in
  let n100 := n / 36524 in let n := n mod 36524 in
  let n4 := n / 1461 in let n := n mod 1461 in
  let n1 := n / 365 in let n := n mod 365 in
  let year := n400 * 400 + 1 + n100 * 100 + n4 * 4 + n1 in
  if (n1 =? 4) || (n100 =? 4) then (year - 1, 12, 31)
  else
    let leapyear := (n1 =? 3) && (negb (n4 =? 24) || (n100 =? 3)) in
    let month := Z.shiftr (n + 50) 5 in
    let preceding := days_before_month (if leapyear then 4 else 1) month in
    if n <? preceding then
      let month' := month - 1 in
      let preceding' :=
        preceding - (nth (Z.to_nat (month' - 1)) DAYS_IN_MONTH 0
                     + (if (month' =? 2) && leapyear then 1 else 0)) in
      (year, month', n - preceding' + 1)
    else (year, month, n - preceding + 1).

Definition year_of (t : datetime) : Z := fst (fst (ord2ymd (t / US_PER_DAY + 1))).
Definition month_of (t : datetime) : Z := snd (fst (ord2ymd (t / US_PER_DAY + 1))).
Definition day_of (t : datetime) : Z := snd (ord2ymd (t / US_PER_DAY + 1)).
Definition hour_of (t : datetime) : Z := (t mod US_PER_DAY) / (3600 * US_PER_SECOND).
Definition minute_of (t : datetime) : Z := (t / (60 * US_PER_SECOND)) mod 60.

Definition d2 (z : Z) : pystr := zero_pad 2 (str_of_Z z).
Definition d4 (z : Z) : pystr := zero_pad 4 (str_of_Z z).

(** [strftime("%Y年%m月%d日")] *)
Definition strftime_cn_date (t : datetime) : pystr :=
  d4 (year_of t) ++ u "年" ++ d2 (month_of t) ++ u "月" ++ d2 (day_of t) ++ u "日".

(** [strftime("%H:%M")] *)
Definition strftime_hm (t : datetime) : pystr :=
  d2 (hour_of t) ++ u ":" ++ d2 (minute_of t).

(** [strftime('%Y-%m-%d %H:%M')] *)
Definition strftime_stamp (t : datetime) : pystr :=
  d4 (year_of t) ++ u "-" ++ d2 (month_of t) ++ u "-" ++ d2 (day_of t)
  ++ u " " ++ strftime_hm t.

End DateTime.
Import DateTime.

Example ord2ymd_roundtrip :
  ord2ymd (ymd2ord 2026 11 3) = (2026, 11, 3)%Z
  /\ ord2ymd (ymd2ord 2024 2 29) = (2024, 2, 29)%Z
  /\ ord2ymd (ymd2ord 2023 12 31) = (2023, 12, 31)%Z
  /\ ord2ymd (ymd2ord 2000 3 1) = (2000, 3, 1)%Z.
Proof. vm_compute. done. Qed.

(** ** Python values, exceptions and effects *)

(** JSON documents and the keyword arguments built from them. A dict keeps
    its insertion order. *)
Inductive pyval :=
  | VNone
  | VBool (b : bool)
  | VInt (n : Z)
  | VStr (s : pystr)
  | VList (l : list pyval)
  | VDict (d : list (pystr * pyval)).

Inductive exn_class :=
  | ValueError | OverflowError | KeyError | TypeError | AttributeError
  | ZeroDivisionError | RequestException | Exception.

(** A raised exception; [exn_str] is what [str(e)] gives. Every class above
    derives from [Exception], so [except Exception] catches all of them. *)
Record exn := Raise { exn_type : exn_class; exn_str : pystr }.

Inductive outcome (A : Type) :=
  | Ok (a : A)
  | Raised (e : exn).
Arguments Ok {A} a.
Arguments Raised {A} e.

(** The mutable state of one process: how often the clock was read, how many
    HTTP requests were sent, and the two fields of the [AutoPublisher]
    object. *)
Record St := {
  ticks : nat;
  calls : nat;
  ai_category_id : pyval;
  tag_ids : list pyval
}.

Definition M (A : Type) : Type := St -> outcome A * St.

Definition ret {A} (a : A) : M A := fun st => (Ok a, st).

Definition bind {A B} (m : M A) (k : A -> M B) : M B :=
  fun st =>
    match m st with
    | (Ok a, st') => k a st'
    | (Raised e, st') => (Raised e, st')
    end.

Definition raise {A} (c : exn_class) (msg : pystr) : M A :=
  fun st => (Raised (Raise c msg), st).

Definition lift {A} (o : outcome A) : M A := fun st => (o, st).

(** [try: m  except Exception as e: handler e] *)
Definition try_except {A} (m : M A) (handler : exn -> M A) : M A :=
  fun st =>
    match m st with
    | (Ok a, st') => (Ok a, st')
    | (Raised e, st') => handler e st'
    end.

Notation "'let*' x ':=' m 'in' k" := (bind m (fun x => k))
  (at level 10, x name, m at level 100, k at level 200).

(** Truth value of an object. *)
Definition truthy (v : pyval) : bool :=
  match v with
  | VNone => false
  | VBool b => b
  | VInt n => negb (n =? 0)%Z
  | VStr s => negb (bool_decide (s = []))
  | VList l => negb (bool_decide (length l = 0))
  | VDict d => negb (bool_decide (length d = 0))
  end.

Fixpoint dict_get (k : pystr) (d : list (pystr * pyval)) : option pyval :=
  match d with
  | [] => None
  | (k', v) :: d' => if bool_decide (k' = k) then Some v else dict_get k d'
  end.

Definition dict_has (k : pystr) (d : list (pystr * pyval)) : bool :=
  bool_decide (is_Some (dict_get k d)).

(** [v[k]] for a string key. *)
Definition subscript (v : pyval) (k : pystr) : outcome pyval :=
  match v with
  | VDict d =>
      match dict_get k d with
      | Some x => Ok x
      | None => Raised (Raise KeyError (u "'" ++ k ++ u "'"))
      end
  | VNone => Raised (Raise TypeError (u "'NoneType' object is not subscriptable"))
  | VBool _ => Raised (Raise TypeError (u "'bool' object is not subscriptable"))
  | VInt _ => Raised (Raise TypeError (u "'int' object is not subscriptable"))
  | VStr _ => Raised (Raise TypeError (u "string indices must be integers"))
  | VList _ => Raised (Raise TypeError (u "list indices must be integers or slices, not str"))
  end.

Definition pyval_is_str (v : pyval) (s : pystr) : bool :=
  match v with VStr s' => bool_decide (s' = s) | _ => false end.

(** [k in v] for a string [k]. *)
Definition contains (k : pystr) (v : pyval) : outcome bool :=
  match v with
  | VDict d => Ok (dict_has k d)
  | VList l => Ok (existsb (fun x => pyval_is_str x k) l)
  | VStr s => Ok (str_contains k s)
  | _ => Raised (Raise TypeError (u "argument is not iterable"))
  end.

(** ** news_fetcher.py *)

Record NewsItem := {
  title : pystr;
  link : pystr;
  summary : pystr;
  source : pystr;
  published : datetime
}.

(** One element of [feed.entries]: a field is [None] when the attribute is
    missing (for the two parsed times also when it is falsy). *)
Record RawEntry := {
  entry_title : option pystr;
  entry_link : option pystr;
  entry_summary : option pystr;
  entry_description : option pystr;
  published_parsed : option struct_time;
  updated_parsed : option struct_time
}.

Definition RSS_SOURCES : list (pystr * pystr) :=
  [ (u "Hacker News (AI)", u "https://hnrss.org/newest?q=AI+agent+OR+LLM+OR+GPT+OR+Claude");
    (u "MIT Tech Review AI", u "https://www.technologyreview.com/topic/artificial-intelligence/feed");
    (u "OpenAI Blog", u "https://openai.com/blog/rss.xml");
    (u "Google AI Blog", u "https://blog.google/technology/ai/rss/");
    (u "Hugging Face Blog", u "https://huggingface.co/blog/feed.xml");
    (u "The Verge AI", u "https://www.theverge.com/rss/ai-artificial-intelligence/index.xml");
    (u "机器之心", u "https://rsshub.app/jiqizhixin");
    (u "量子位", u "https://rsshub.app/qbitai");
    (u "AI科技评论", u "https://rsshub.app/leiphone/category/ai") ].

Definition KEYWORDS : list pystr :=
  [ u "agent"; u "ai agent"; u "llm"; u "gpt"; u "claude"; u "gemini";
    u "langchain"; u "autogpt"; u "chatgpt"; u "copilot";
    u "大模型"; u "智能体"; u "AI助手"; u "人工智能";
    u "anthropic"; u "openai"; u "机器人"; u "自动化" ].

(** [re.sub(r'<[^>]+>', '', text)]: [pending] holds the text read since a
    [<] that has not met its [>] yet. *)
Fixpoint strip_tags_go (pending : option pystr) (s : pystr) : pystr :=
  match s with
  | [] => default [] pending
  | c :: s' =>
      match pending with
      | None =>
          if (c =? 60)%N then strip_tags_go (Some [c]) s'
          else c :: strip_tags_go None s'
      | Some buf =>
          if (c =? 62)%N then
            (match buf with [_] => buf ++ [c] | _ => [] end)
            ++ strip_tags_go None s'
          else strip_tags_go (Some (buf ++ [c])) s'
      end
  end.

Definition strip_tags (s : pystr) : pystr := strip_tags_go None s.

(** The characters [\s] matches and [str.strip] removes. *)
Definition is_space (c : N) : bool :=
  ((9 <=? c) && (c <=? 13) || (28 <=? c) && (c <=? 32)
   || (c =? 133) || (c =? 160) || (c =? 5760)
   || (8192 <=? c) && (c <=? 8202)
   || (c =? 8232) || (c =? 8233) || (c =? 8239) || (c =? 8287)
   || (c =? 12288))%N.

(** [re.sub(r'\s+', ' ', text)] *)
Fixpoint collapse_ws (in_run : bool) (s : pystr) : pystr :=
  match s with
  | [] => []
  | c :: s' =>
      if is_space c then
        if in_run then collapse_ws true s' else 32%N :: collapse_ws true s'
      else c :: collapse_ws false s'
  end.

Fixpoint lstrip (s : pystr) : pystr :=
  match s with
  | [] => []
  | c :: s' => if is_space c then lstrip s' else s
  end.

Definition str_strip (s : pystr) : pystr := reverse (lstrip (reverse (lstrip s))).

(** [list.sort(key=key, reverse=True)]. The built-in sort is stable, also
    under [reverse=True]: elements with equal keys keep their order. A stable
    sort is determined by its input, so any stable sort gives its result;
    this one inserts each element in front of the first element whose key is
    not larger. *)
Fixpoint insert_desc {A} (key : A -> Z) (x : A) (l : list A) : list A :=
  match l with
  | [] => [x]
  | y :: l' =>
      if (key x <? key y)%Z then y :: insert_desc key x l' else x :: l
  end.

Definition list_sort_reverse {A} (key : A -> Z) (l : list A) : list A :=
  foldr (insert_desc key) [] l.

Section World.

(** The wall clock: [clock n] is what the [n]-th call of [datetime.now()]
    of the process returns. *)
Variable clock : nat -> datetime.

(** [feedparser.parse(url).entries], or the exception the call raises. *)
Variable feedparser_parse : pystr -> outcome (list RawEntry).

(** [str.lower], [html.unescape] and
    [hashlib.md5(s.encode()).hexdigest()]; the last one for texts that
    [str.encode] accepts, those without a lone surrogate. *)
Variable str_lower : pystr -> pystr.
Variable html_unescape : pystr -> pystr.
Variable md5_hexdigest : pystr -> pystr.

Definition datetime_now : M datetime :=
  fun st =>
    (Ok (clock (ticks st)),
     {| ticks := S (ticks st); calls := calls st;
        ai_category_id := ai_category_id st; tag_ids := tag_ids st |}).

(** [datetime] built from the first six fields of a parsed time. *)
Definition datetime_of (t : struct_time) : outcome datetime :=
  if valid_fields t then Ok (of_fields t)
  else Raised (Raise ValueError (u "datetime field is out of range")).

(** [timedelta(hours=hours)] for an integer [hours], as a number of
    microseconds. The constructor normalizes to days, seconds and
    microseconds; the number of days has to fit a C [int] and then to be
    of magnitude 999999999 at most. *)
Definition timedelta_hours (hours : Z) : outcome Z :=
  let days := (hours / 24)%Z in
  if negb ((- 2147483648 <=? days) && (days <=? 2147483647))%Z then
    Raised (Raise OverflowError (u "Python int too large to convert to C int"))
  else if negb ((- 999999999 <=? days) && (days <=? 999999999))%Z then
    Raised (Raise OverflowError
              (u "days=" ++ str_of_Z days ++ u "; must have magnitude <= 999999999"))
  else Ok (hours * 3600 * US_PER_SECOND)%Z.

(** [t - delta] for a [timedelta] of [delta] microseconds. *)
Definition sub_timedelta (t : datetime) (delta : Z) : outcome datetime :=
  let r := (t - delta)%Z in
  if in_range r then Ok r
  else Raised (Raise OverflowError (u "date value out of range")).

(** [t - timedelta(hours=hours)] *)
Definition sub_hours (t : datetime) (hours : Z) : outcome datetime :=
  match timedelta_hours hours with
  | Ok delta => sub_timedelta t delta
  | Raised e => Raised e
  end.

(** [NewsItem.id] *)
Definition id (item : NewsItem) : pystr := take 12 (md5_hexdigest (link item)).

Definition _clean_html (text : pystr) : pystr :=
  let text := html_unescape text in
  let text := strip_tags text in
  str_strip (collapse_ws false text).

(** The body of the loop of [fetch_rss] for one entry. *)
Definition normalize_entry (source_name : pystr) (entry : RawEntry) : M NewsItem :=
  let* now := datetime_now in
  let* published :=
    match published_parsed entry with
    | Some t => lift (datetime_of t)
    | None =>
        match updated_parsed entry with
        | Some t => lift (datetime_of t)
        | None => ret now
        end
    end in
  let summary :=
    match entry_summary entry with
    | Some s => take 500 (_clean_html s)
    | None =>
        match entry_description entry with
        | Some s => take 500 (_clean_html s)
        | None => []
        end
    end in
  ret {| title := default (u "Untitled") (entry_title entry);
         link := default [] (entry_link entry);
         summary := summary;
         source := source_name;
         published := published |}.

(** The loop of [fetch_rss]: [items] is the list built so far; an exception
    leaves the loop with the list as it is. *)
Fixpoint fetch_rss_loop (source_name : pystr) (entries : list RawEntry)
    (items : list NewsItem) (st : St) : list NewsItem * option exn * St :=
  match entries with
  | [] => (items, None, st)
  | entry :: rest =>
      match normalize_entry source_name entry st with
      | (Ok item, st') => fetch_rss_loop source_name rest (items ++ [item]) st'
      | (Raised e, st') => (items, Some e, st')
      end
  end.

Definition fetch_rss (url source_name : pystr) : M (list NewsItem) :=
  fun st =>
    match feedparser_parse url with
    | Raised e => (Ok [], st)
    | Ok entries =>
        let '(items, _, st') := fetch_rss_loop source_name (take 20 entries) [] st in
        (Ok items, st')
    end.

Definition _is_relevant (item : NewsItem) : bool :=
  let text := str_lower (title item ++ u " " ++ summary item) in
  existsb (fun kw => str_contains (str_lower kw) text) KEYWORDS.

(** [item.published >= cutoff_time] *)
Definition in_time_window (cutoff_time : datetime) (item : NewsItem) : bool :=
  (cutoff_time <=? published item)%Z.

(** The test of the inner loop of [fetch_all]. *)
Definition passes_filters (cutoff_time : datetime) (item : NewsItem) : bool :=
  in_time_window cutoff_time item && _is_relevant item.

(** The loop over [RSS_SOURCES]; [all_items] is the list built so far. *)
Fixpoint fetch_sources (sources : list (pystr * pystr)) (cutoff_time : datetime)
    (all_items : list NewsItem) : M (list NewsItem) :=
  match sources with
  | [] => ret all_items
  | (source_name, url) :: rest =>
      let* items := fetch_rss url source_name in
      fetch_sources rest cutoff_time
        (all_items ++ List.filter (passes_filters cutoff_time) items)
  end.

(** The deduplication loop of [fetch_all]. *)
Fixpoint dedup_loop (seen : gset pystr) (unique_items : list NewsItem)
    (all_items : list NewsItem) : list NewsItem :=
  match all_items with
  | [] => unique_items
  | item :: rest =>
      if decide (id item ∈ seen) then dedup_loop seen unique_items rest
      else dedup_loop ({[ id item ]} ∪ seen) (unique_items ++ [item]) rest
  end.

Definition deduplicate (all_items : list NewsItem) : list NewsItem :=
  dedup_loop ∅ [] all_items.

Definition rank (unique_items : list NewsItem) : list NewsItem :=
  list_sort_reverse published unique_items.

Definition fetch_all (hours : Z) : M (list NewsItem) :=
  let* now := datetime_now in
  let* cutoff_time := lift (sub_hours now hours) in
  let* all_items := fetch_sources RSS_SOURCES cutoff_time [] in
  ret (rank (deduplicate all_items)).

(** [by_source] of [format_as_blog_post]: a dict from source to the list of
    its items, in insertion order. *)
Fixpoint group_add (item : NewsItem) (by_source : list (pystr * list NewsItem))
    : list (pystr * list NewsItem) :=
  match by_source with
  | [] => [(source item, [item])]
  | (s, l) :: rest =>
      if decide (s = source item) then (s, l ++ [item]) :: rest
      else (s, l) :: group_add item rest
  end.

Definition group_by_source (items : list NewsItem) : list (pystr * list NewsItem) :=
  foldl (fun by_source item => group_add item by_source) [] items.

Definition render_item (item : NewsItem) : list pystr :=
  [ u "<li><strong><a href=" ++ dquote ++ link item ++ dquote
    ++ u " target=" ++ dquote ++ u "_blank" ++ dquote ++ u ">"
    ++ title item ++ u "</a></strong>" ++ u "<br /><small>"
    ++ strftime_hm (published item) ++ u "</small>" ]
  ++ (if decide (summary item = []) then []
      else [ u "<p>" ++ take 200 (summary item) ++ u "...</p>" ])
  ++ [ u "</li>" ].

Definition render_source (group : pystr * list NewsItem) : list pystr :=
  [ u "<h2>" ++ fst group ++ u "</h2>"; u "<ul>" ]
  ++ concat (map render_item (snd group))
  ++ [ u "</ul>" ].

Definition format_as_blog_post (items : list NewsItem) (max_items : Z)
    (date : option datetime) : M (pystr * pystr * pystr) :=
  let* date := match date with None => datetime_now | Some d => ret d end in
  let date_str := strftime_cn_date date in
  let title := u "AI Agent 每日资讯 - " ++ date_str in
  let shown := py_slice items 0 max_items in
  let by_source := group_by_source shown in
  let* generated := datetime_now in
  let content_parts :=
    [ u "<p>今日精选 <strong>" ++ str_of_nat (length shown)
      ++ u "</strong> 条 AI Agent 领域重要资讯。</p>";
      u "<hr />" ]
    ++ concat (map render_source by_source)
    ++ [ u "<hr />";
         u "<p><em>本文由 AI Agent 资讯聚合系统自动生成，更新时间："
         ++ strftime_stamp generated ++ u "</em></p>" ] in
  let content := str_join [10%N] content_parts in
  let excerpt := u "AI Agent 领域 " ++ date_str ++ u " 资讯汇总，共 "
                 ++ str_of_nat (length shown) ++ u " 条精选内容。" in
  ret (title, content, excerpt).


(** ** wp_publisher.py *)

Inductive http_method := GET | POST.

(** A call of [requests.get] or [requests.post]: [payload] is the [json=]
    body or the [params=] dict. Credentials and timeout belong to the
    transport. *)
Record Request := {
  method : http_method;
  url : pystr;
  payload : pyval
}.

(** What the code reads of a response; [json] is the value of
    [response.json()] or the exception it raises. *)
Record Response := {
  status_code : Z;
  text : pystr;
  json : outcome pyval
}.

(** The error record of [publish_multiple]. *)
Definition error_record (e : exn) : pyval :=
  VDict [(u "error", VStr (exn_str e))].

(** The error record of [batch_publish]. *)
Definition error_record_titled (e : exn) (post_data : list (pystr * pyval)) : pyval :=
  VDict [(u "error", VStr (exn_str e));
         (u "title", default VNone (dict_get (u "title") post_data))].

(** [len([r for r in results if "error" not in r])] *)
Fixpoint success_count (results : list pyval) : outcome nat :=
  match results with
  | [] => Ok 0
  | r :: rest =>
      match contains (u "error") r with
      | Raised e => Raised e
      | Ok has_error =>
          match success_count rest with
          | Raised e => Raised e
          | Ok n => Ok (if has_error then n else S n)
          end
      end
  end.

(** Iteration over a value: the elements of a list, the keys of a dict, the
    characters of a string. *)
Definition iterate (v : pyval) : outcome (list pyval) :=
  match v with
  | VList l => Ok l
  | VDict d => Ok (map (fun kv => VStr (fst kv)) d)
  | VStr s => Ok (map (fun c => VStr [c]) s)
  | _ => Raised (Raise TypeError (u "object is not iterable"))
  end.

(** The [n]-th HTTP request of the process and its result: a response or
    the exception [requests] raises. *)
Variable requests_send : nat -> Request -> outcome Response.

(** [self.site_url], trailing slashes already removed. *)
Variable site_url : pystr.

Definition api_base : pystr := site_url ++ u "/wp-json/wp/v2".

Definition requests_call (m : http_method) (path : pystr) (data : pyval) : M Response :=
  fun st =>
    (requests_send (calls st) {| method := m; url := api_base ++ path; payload := data |},
     {| ticks := ticks st; calls := S (calls st);
        ai_category_id := ai_category_id st; tag_ids := tag_ids st |}).

Definition test_connection : M bool :=
  try_except
    (let* response := requests_call GET (u "/users/me") VNone in
     if (status_code response =? 200)%Z then
       let* user := lift (json response) in
       let* _ := lift (subscript user (u "name")) in
       ret true
     else ret false)
    (fun _ => ret false).

Definition optional_field (key : pystr) (v : pyval) : list (pystr * pyval) :=
  if truthy v then [(key, v)] else [].

Definition create_post (title content status categories tags excerpt
    featured_image_id slug : pyval) : M pyval :=
  let data :=
    [(u "title", title); (u "content", content); (u "status", status)]
    ++ optional_field (u "categories") categories
    ++ optional_field (u "tags") tags
    ++ optional_field (u "excerpt") excerpt
    ++ optional_field (u "featured_media") featured_image_id
    ++ optional_field (u "slug") slug in
  let* response := requests_call POST (u "/posts") (VDict data) in
  if (status_code response =? 201)%Z then
    let* post := lift (json response) in
    let* _ := lift (subscript post (u "link")) in
    ret post
  else
    raise Exception (u "发布失败: " ++ str_of_Z (status_code response)
                     ++ u " - " ++ text response).

(** The loop of [get_category_by_name] and of [get_tag_by_name]. *)
Fixpoint find_by_name (name : pystr) (terms : list pyval) : outcome pyval :=
  match terms with
  | [] => Ok VNone
  | term :: rest =>
      match subscript term (u "name") with
      | Raised e => Raised e
      | Ok (VStr s) =>
          if decide (str_lower s = str_lower name) then Ok term
          else find_by_name name rest
      | Ok _ => Raised (Raise AttributeError (u "object has no attribute 'lower'"))
      end
  end.

Definition get_term_by_name (path name : pystr) : M pyval :=
  let* response := requests_call GET path (VDict [(u "search", VStr name)]) in
  if (status_code response =? 200)%Z then
    let* terms := lift (json response) in
    let* terms := lift (iterate terms) in
    lift (find_by_name name terms)
  else ret VNone.

Definition get_category_by_name (name : pystr) : M pyval :=
  get_term_by_name (u "/categories") name.

Definition get_tag_by_name (name : pystr) : M pyval :=
  get_term_by_name (u "/tags") name.

Definition create_category (name : pystr) (slug description : pyval) : M pyval :=
  let data := [(u "name", VStr name)]
              ++ optional_field (u "slug") slug
              ++ optional_field (u "description") description in
  let* response := requests_call POST (u "/categories") (VDict data) in
  if (status_code response =? 201)%Z then lift (json response)
  else if (status_code response =? 400)%Z && str_contains (u "term_exists") (text response)
  then get_category_by_name name
  else raise Exception (u "创建分类失败: " ++ text response).

Definition create_tag (name : pystr) (slug : pyval) : M pyval :=
  let data := [(u "name", VStr name)] ++ optional_field (u "slug") slug in
  let* response := requests_call POST (u "/tags") (VDict data) in
  if (status_code response =? 201)%Z then lift (json response)
  else if (status_code response =? 400)%Z && str_contains (u "term_exists") (text response)
  then get_tag_by_name name
  else raise Exception (u "创建标签失败: " ++ text response).

(** [self.create_post( **post_data )]: binding of the keyword arguments. The
    texts of the interpreter's [TypeError]s are indicative. *)
Definition create_post_params : list pystr :=
  [u "title"; u "content"; u "status"; u "categories"; u "tags";
   u "excerpt"; u "featured_image_id"; u "slug"].

Definition create_post_kwargs (post_data : list (pystr * pyval)) : M pyval :=
  match List.find (fun kv => negb (bool_decide (fst kv ∈ create_post_params))) post_data with
  | Some kv =>
      raise TypeError (u "create_post() got an unexpected keyword argument '"
                       ++ fst kv ++ u "'")
  | None =>
      match dict_get (u "title") post_data, dict_get (u "content") post_data with
      | Some title, Some content =>
          let arg k d := default d (dict_get (u k) post_data) in
          create_post title content (arg "status" (VStr (u "publish")))
            (arg "categories" VNone) (arg "tags" VNone) (arg "excerpt" VNone)
            (arg "featured_image_id" VNone) (arg "slug" VNone)
      | _, _ => raise TypeError (u "create_post() missing required positional arguments")
      end
  end.

(** The loop of [batch_publish]; [results] is the list built so far. *)
Fixpoint batch_publish_loop (posts : list (list (pystr * pyval)))
    (results : list pyval) : M (list pyval) :=
  match posts with
  | [] => ret results
  | post_data :: rest =>
      let* results :=
        try_except
          (let* result := create_post_kwargs post_data in
           ret (results ++ [result]))
          (fun e => ret (results ++ [error_record_titled e post_data])) in
      batch_publish_loop rest results
  end.

Definition batch_publish (posts : list (list (pystr * pyval))) : M (list pyval) :=
  let* results := batch_publish_loop posts [] in
  let* _ := lift (success_count results) in
  ret results.

(** ** auto_publish.py *)

Definition set_ai_category_id (v : pyval) : M unit :=
  fun st =>
    (Ok tt, {| ticks := ticks st; calls := calls st;
               ai_category_id := v; tag_ids := tag_ids st |}).

Definition append_tag_id (v : pyval) : M unit :=
  fun st =>
    (Ok tt, {| ticks := ticks st; calls := calls st;
               ai_category_id := ai_category_id st; tag_ids := tag_ids st ++ [v] |}).

Definition get_ai_category_id : M pyval := fun st => (Ok (ai_category_id st), st).
Definition get_tag_ids : M (list pyval) := fun st => (Ok (tag_ids st), st).

Definition tag_names : list pystr :=
  [u "AI"; u "Agent"; u "LLM"; u "每日资讯"; u "人工智能"].

Fixpoint setup_tags (names : list pystr) : M unit :=
  match names with
  | [] => ret tt
  | name :: rest =>
      let* tag := create_tag name VNone in
      let* tag_id := lift (subscript tag (u "id")) in
      let* _ := append_tag_id tag_id in
      setup_tags rest
  end.

Definition setup_taxonomy : M unit :=
  let* category :=
    create_category (u "AI Agent") (VStr (u "ai-agent"))
      (VStr (u "AI Agent 相关资讯")) in
  let* category_id := lift (subscript category (u "id")) in
  let* _ := set_ai_category_id category_id in
  setup_tags tag_names.

(** Lines 138-140 of [publish_multiple]: the number of posts the loop is run
    for. *)
Definition effective_count (all_items : list NewsItem) (count items_per_post : Z)
    : outcome Z :=
  if (Z.of_nat (length all_items) <? count * items_per_post)%Z then
    if (items_per_post =? 0)%Z then
      Raised (Raise ZeroDivisionError (u "integer division or modulo by zero"))
    else Ok (Z.of_nat (length all_items) / items_per_post)%Z
  else Ok count.

(** [all_items[start_idx:end_idx]] of iteration [i]. *)
Definition batch_slice (all_items : list NewsItem) (items_per_post i : Z)
    : list NewsItem :=
  let start_idx := (i * items_per_post)%Z in
  let end_idx := (start_idx + items_per_post)%Z in
  py_slice all_items start_idx end_idx.

(** Lines 151-158 of [publish_multiple]: title, content and excerpt of the
    post of iteration [i]. *)
Definition batch_document (i : Z) (batch_items : list NewsItem) (items_per_post : Z)
    : M (pystr * pystr * pystr) :=
  let* now := datetime_now in
  let date_str := strftime_cn_date now in
  let title := u "AI Agent 资讯速递 #" ++ str_of_Z (i + 1) ++ u " - " ++ date_str in
  let* doc := format_as_blog_post batch_items items_per_post None in
  let '(_, content, excerpt) := doc in
  ret (title, content, excerpt).

(** The call of [create_post] in [publish_multiple]. *)
Definition submit_document (doc : pystr * pystr * pystr) : M pyval :=
  let '(title, content, excerpt) := doc in
  let* category_id := get_ai_category_id in
  let* tags := get_tag_ids in
  create_post (VStr title) (VStr content) (VStr (u "publish"))
    (VList [category_id]) (VList tags) (VStr excerpt) VNone VNone.

(** The body of the loop of [publish_multiple] once [batch_items] is known
    to be non-empty. The handler sees [results] as the [try] block left
    it. *)
Definition publish_batch (i : Z) (batch_items : list NewsItem) (items_per_post : Z)
    (results : list pyval) : M (list pyval) :=
  let* doc := batch_document i batch_items items_per_post in
  try_except
    (let* post := submit_document doc in
     try_except
       (let* _ := lift (subscript post (u "link")) in
        ret (results ++ [post]))
       (fun e => ret (results ++ [post] ++ [error_record e])))
    (fun e => ret (results ++ [error_record e])).

(** [for i in range(count)], [remaining] iterations left, starting at [i]. *)
Fixpoint publish_loop (remaining : nat) (i : Z) (all_items : list NewsItem)
    (items_per_post : Z) (results : list pyval) : M (list pyval) :=
  match remaining with
  | O => ret results
  | S remaining' =>
      let batch_items := batch_slice all_items items_per_post i in
      match batch_items with
      | [] => ret results
      | _ :: _ =>
          let* results := publish_batch i batch_items items_per_post results in
          publish_loop remaining' (i + 1)%Z all_items items_per_post results
      end
  end.

Definition publish_multiple (count hours_per_batch items_per_post : Z)
    : M (list pyval) :=
  let* connected := test_connection in
  if negb connected then ret []
  else
    let* _ := setup_taxonomy in
    let* all_items := fetch_all (hours_per_batch * count)%Z in
    let* count := lift (effective_count all_items count items_per_post) in
    let* results := publish_loop (Z.to_nat count) 0%Z all_items items_per_post [] in
    let* _ := lift (success_count results) in
    ret results.

(** [publish_daily_news]; [None] is [VNone]. The banner prints the current
    time, which reads the clock. *)
Definition publish_daily_news (hours max_items : Z) (status : pystr) : M pyval :=
  let* _ := datetime_now in
  let* connected := test_connection in
  if negb connected then ret VNone
  else
    let* _ := setup_taxonomy in
    let* items := fetch_all hours in
    match items with
    | [] => ret VNone
    | _ :: _ =>
        let* doc := format_as_blog_post items max_items None in
        let '(title, content, excerpt) := doc in
        let* category_id := get_ai_category_id in
        let* tags := get_tag_ids in
        let* post :=
          create_post (VStr title) (VStr content) (VStr status)
            (VList [category_id]) (VList tags) (VStr excerpt) VNone VNone in
        let* _ := lift (subscript post (u "link")) in
        ret post
    end.

(** ** Notions used to state the properties *)

Definition advance (st : St) (n : nat) : St :=
  {| ticks := ticks st + n; calls := calls st;
     ai_category_id := ai_category_id st; tag_ids := tag_ids st |}.

(** The parsed time [fetch_rss] builds the timestamp from, if any. *)
Definition chosen_time (entry : RawEntry) : option struct_time :=
  match published_parsed entry with
  | Some t => Some t
  | None => updated_parsed entry
  end.

(** An entry that cannot be normalized: its parsed time is not a date the
    [datetime] constructor accepts. *)
Definition malformed (entry : RawEntry) : bool :=
  match chosen_time entry with
  | Some t => negb (valid_fields t)
  | None => false
  end.

(** The item a well-formed entry is normalized to when the clock shows
    [now]. *)
Definition item_of (source_name : pystr) (entry : RawEntry) (now : datetime) : NewsItem :=
  {| title := default (u "Untitled") (entry_title entry);
     link := default [] (entry_link entry);
     summary :=
       match entry_summary entry with
       | Some s => take 500 (_clean_html s)
       | None =>
           match entry_description entry with
           | Some s => take 500 (_clean_html s)
           | None => []
           end
       end;
     source := source_name;
     published :=
       match chosen_time entry with
       | Some t => of_fields t
       | None => now
       end |}.

(** The entries before the first malformed one. *)
Fixpoint good_prefix (entries : list RawEntry) : list RawEntry :=
  match entries with
  | [] => []
  | entry :: rest => if malformed entry then [] else entry :: good_prefix rest
  end.

(** What [fetch_rss] returns for the given sources, one after the other:
    the items the loop of [fetch_all] iterates over, before its filter. *)
Fixpoint fetched_items (sources : list (pystr * pystr)) : M (list NewsItem) :=
  match sources with
  | [] => ret []
  | (source_name, url) :: rest =>
      let* items := fetch_rss url source_name in
      let* more := fetched_items rest in
      ret (items ++ more)
  end.

(** The batches the loop of [publish_multiple] goes through, with their
    indices: the slices up to the first empty one. *)
Fixpoint batch_plan (remaining : nat) (i : Z) (all_items : list NewsItem)
    (items_per_post : Z) : list (Z * list NewsItem) :=
  match remaining with
  | O => []
  | S remaining' =>
      match batch_slice all_items items_per_post i with
      | [] => []
      | batch_items =>
          (i, batch_items) :: batch_plan remaining' (i + 1)%Z all_items items_per_post
      end
  end.

(** One submission: the document of a batch is built and handed to
    [create_post]. *)
Definition submission (i : Z) (batch_items : list NewsItem) (items_per_post : Z)
    : M pyval :=
  let* doc := batch_document i batch_items items_per_post in
  submit_document doc.

(** The outcomes of the submissions of the given batches, one after the
    other, whatever the earlier ones gave. *)
Fixpoint run_submissions (batches : list (Z * list NewsItem)) (items_per_post : Z)
    (st : St) : list (outcome pyval) * St :=
  match batches with
  | [] => ([], st)
  | (i, batch_items) :: rest =>
      let '(o, st1) := submission i batch_items items_per_post st in
      let '(os, st2) := run_submissions rest items_per_post st1 in
      (o :: os, st2)
  end.

(** The same for the posts handed to [batch_publish]. *)
Fixpoint run_posts (posts : list (list (pystr * pyval))) (st : St)
    : list (outcome pyval) * St :=
  match posts with
  | [] => ([], st)
  | post_data :: rest =>
      let '(o, st1) := create_post_kwargs post_data st in
      let '(os, st2) := run_posts rest st1 in
      (o :: os, st2)
  end.

(** The entry of the result list for an outcome. *)
Definition result_of (o : outcome pyval) : pyval :=
  match o with
  | Ok post => post
  | Raised e => error_record e
  end.

Definition result_of_titled (post_data : list (pystr * pyval)) (o : outcome pyval)
    : pyval :=
  match o with
  | Ok post => post
  | Raised e => error_record_titled e post_data
  end.

Definition succeeded {A} (o : outcome A) : bool :=
  match o with Ok _ => true | Raised _ => false end.

(** An error result: a dict with the key ["error"]. *)
Definition is_error_result (r : pyval) : bool :=
  match r with
  | VDict d => dict_has (u "error") d
  | _ => false
  end.

(** The state after [n] more HTTP requests. *)
Definition sent (st : St) (n : nat) : St :=
  {| ticks := ticks st; calls := calls st + n;
     ai_category_id := ai_category_id st; tag_ids := tag_ids st |}.

(** Keyword arguments [create_post] accepts: known names only, [title] and
    [content] among them. *)
Definition valid_kwargs (post_data : list (pystr * pyval)) : bool :=
  forallb (fun kv => bool_decide (fst kv ∈ create_post_params)) post_data
  && dict_has (u "title") post_data && dict_has (u "content") post_data.

(** A term of the site: a dict whose ["name"] is a string. *)
Definition term_name (term : pyval) : option pystr :=
  match term with
  | VDict d => match dict_get (u "name") d with Some (VStr s) => Some s | _ => None end
  | _ => None
  end.

(** What [test_connection] answers when its request is the [n]-th one. *)
Definition reachable (n : nat) : bool :=
  match requests_send n {| method := GET; url := api_base ++ u "/users/me";
                           payload := VNone |} with
  | Ok response =>
      (status_code response =? 200)%Z
      && match json response with
         | Ok (VDict user) => dict_has (u "name") user
         | _ => false
         end
  | Raised _ => false
  end.

(** A text in which no [<] is followed by one or more characters other than
    [>] and then a [>]. *)
Definition tag_free (t : pystr) : Prop :=
  ∀ pre rest, t = pre ++ 60%N :: rest → (∃ r, rest = 62%N :: r) ∨ 62%N ∉ rest.

(** [prev] tells whether the character before [t] is white space: no white
    space in [t] but single spaces. *)
Fixpoint single_spaced (prev : bool) (t : pystr) : bool :=
  match t with
  | [] => true
  | c :: r =>
      if is_space c then (c =? 32)%N && negb prev && single_spaced true r
      else single_spaced false r
  end.

(** * Properties *)

(** Keeps the solvers away from the parts of the world a goal does not
    mention. *)
Ltac forget_world :=
  try clear clock; try clear feedparser_parse; try clear str_lower;
  try clear html_unescape; try clear requests_send; try clear site_url;
  try clear md5_hexdigest.

(** ** The deduplication loop *)

Lemma dedup_loop_acc seen acc l :
  dedup_loop seen acc l = acc ++ dedup_loop seen [] l.
Proof.
  forget_world.
  revert seen acc. induction l as [|x l IH]; intros seen acc; simpl.
  - by rewrite app_nil_r.
  - destruct (decide (id x ∈ seen)); [done|].
    rewrite (IH _ (acc ++ [x])), (IH _ [x]). by rewrite <- app_assoc.
Qed.

Lemma dedup_loop_cons seen x l :
  dedup_loop seen [] (x :: l) =
  if decide (id x ∈ seen) then dedup_loop seen [] l
  else x :: dedup_loop ({[ id x ]} ∪ seen) [] l.
Proof.
  forget_world.
  simpl. destruct (decide (id x ∈ seen)); [done|].
  by rewrite dedup_loop_acc.
Qed.

Lemma dedup_loop_elem seen l x :
  x ∈ dedup_loop seen [] l → x ∈ l ∧ id x ∉ seen.
Proof.
  forget_world.
  revert seen. induction l as [|y l IH]; intros seen.
  - simpl. by intros ?%elem_of_nil.
  - rewrite dedup_loop_cons. destruct (decide (id y ∈ seen)) as [Hy|Hy].
    + intros Hin. apply IH in Hin as [? ?]. split; [by right|done].
    + intros [->|Hin]%elem_of_cons.
      * split; [by left|done].
      * apply IH in Hin as [? Hn]. split; [by right|].
        forget_world. set_solver.
Qed.

Lemma dedup_loop_NoDup seen l : NoDup (id <$> dedup_loop seen [] l).
Proof.
  forget_world.
  revert seen. induction l as [|y l IH]; intros seen.
  - simpl. constructor.
  - rewrite dedup_loop_cons. destruct (decide (id y ∈ seen)); [apply IH|].
    rewrite fmap_cons. constructor; [|apply IH].
    intros (z & Hz & Hin)%list_elem_of_fmap.
    apply dedup_loop_elem in Hin as [_ Hn]. forget_world. set_solver.
Qed.

Lemma dedup_loop_sublist seen l : dedup_loop seen [] l `sublist_of` l.
Proof.
  forget_world.
  revert seen. induction l as [|y l IH]; intros seen.
  - done.
  - rewrite dedup_loop_cons. destruct (decide (id y ∈ seen)).
    + by apply sublist_cons.
    + by apply sublist_skip.
Qed.

Lemma dedup_loop_snoc seen pre x :
  dedup_loop seen [] (pre ++ [x]) =
  dedup_loop seen [] pre
  ++ (if decide (id x ∈ seen ∨ id x ∈ id <$> pre) then [] else [x]).
Proof.
  forget_world.
  revert seen. induction pre as [|y pre IH]; intros seen.
  - simpl. destruct (decide (id x ∈ seen)), (decide (_ ∨ _)) as [[?|H]|?];
      try done; try tauto. by apply elem_of_nil in H.
  - rewrite <- app_comm_cons, !dedup_loop_cons.
    destruct (decide (id y ∈ seen)) as [Hy|Hy]; rewrite IH.
    + f_equal. apply decide_ext. rewrite fmap_cons, elem_of_cons.
      intuition congruence.
    + rewrite <- app_comm_cons. do 2 f_equal. apply decide_ext.
      rewrite fmap_cons, elem_of_cons, elem_of_union, elem_of_singleton.
      tauto.
Qed.

Lemma dedup_loop_filter seen l f :
  filter (λ x, id x = f) (dedup_loop seen [] l) =
  if decide (f ∈ seen) then [] else take 1 (filter (λ x, id x = f) l).
Proof.
  forget_world.
  revert seen. induction l as [|y l IH]; intros seen.
  - simpl. by case_decide.
  - rewrite dedup_loop_cons, filter_cons.
    destruct (decide (id y ∈ seen)) as [Hy|Hy].
    + rewrite IH. repeat case_decide; try done. by subst.
    + rewrite filter_cons, IH.
      destruct (decide (id y = f)) as [<-|Hne].
      * rewrite decide_True by (forget_world; set_solver).
        by rewrite decide_False by done.
      * destruct (decide (f ∈ seen)).
        -- by rewrite decide_True by (forget_world; set_solver).
        -- by rewrite decide_False by (forget_world; set_solver).
Qed.

Lemma dedup_loop_covers l x :
  x ∈ l → ∃ y, y ∈ dedup_loop ∅ [] l ∧ id y = id x.
Proof.
  intros Hx. pose proof (dedup_loop_filter ∅ l (id x)) as Hf.
  rewrite decide_False in Hf by apply not_elem_of_empty.
  destruct (filter (λ y, id y = id x) l) as [|z zs] eqn:Hz.
  - exfalso. eapply (filter_nil_not_elem_of (λ y, id y = id x) l x); done.
  - assert (z ∈ filter (λ y, id y = id x) (dedup_loop ∅ [] l)) as Hin
      by (rewrite Hf; simpl; by left).
    apply list_elem_of_filter in Hin as [Hid Hin]. by exists z.
Qed.

Lemma dedup_loop_fixed seen l :
  NoDup (id <$> l) → (∀ x, x ∈ l → id x ∉ seen) → dedup_loop seen [] l = l.
Proof.
  forget_world.
  revert seen. induction l as [|y l IH]; intros seen Hnd Hseen; [done|].
  rewrite fmap_cons in Hnd. apply NoDup_cons in Hnd as [Hy Hnd].
  rewrite dedup_loop_cons, decide_False by (apply Hseen; by left).
  f_equal. apply IH; [done|]. intros x Hx.
  assert (id x ≠ id y).
  { intros Heq. apply Hy. rewrite <- Heq. by apply list_elem_of_fmap_2. }
  assert (id x ∉ seen) by (apply Hseen; by right). forget_world. set_solver.
Qed.

(** C5. The output of the deduplication pass has pairwise distinct
    fingerprints; an item is kept exactly when no item before it in the
    input has its fingerprint (so the first of two items with the same link
    is the one kept); the kept items stay in input order; and for every
    fingerprint the output holds the first input item that has it and no
    other. *)
Theorem deduplicate_first_occurrences (all_items : list NewsItem) :
  NoDup (id <$> deduplicate all_items)
  ∧ deduplicate all_items `sublist_of` all_items
  ∧ (∀ pre x, deduplicate (pre ++ [x]) =
              deduplicate pre ++ (if decide (id x ∈ id <$> pre) then [] else [x]))
  ∧ (∀ f, filter (λ x, id x = f) (deduplicate all_items)
          = take 1 (filter (λ x, id x = f) all_items))
  ∧ (∀ x y, link x = link y → id x = id y).
Proof.
  forget_world.
  unfold deduplicate. split_and!.
  - apply dedup_loop_NoDup.
  - apply dedup_loop_sublist.
  - intros pre x. rewrite dedup_loop_snoc. f_equal. apply decide_ext.
    pose proof (not_elem_of_empty (C:=gset (list N)) (id x)). tauto.
  - intros f. rewrite dedup_loop_filter. apply decide_False, not_elem_of_empty.
  - intros x y Hl. unfold id. by rewrite Hl.
Qed.

(** C7. Deduplicating the output of the deduplication pass changes
    nothing. *)
Theorem deduplicate_idempotent (all_items : list NewsItem) :
  deduplicate (deduplicate all_items) = deduplicate all_items.
Proof.
  forget_world.
  unfold deduplicate. apply dedup_loop_fixed.
  - apply dedup_loop_NoDup.
  - intros x _. apply not_elem_of_empty.
Qed.

(** ** The ranking sort *)

Section Sort.
Context {A : Type} (key : A → Z).

Lemma insert_desc_perm x l : insert_desc key x l ≡ₚ x :: l.
Proof.
  induction l as [|y l IH]; simpl; [done|].
  destruct (key x <? key y)%Z; [|done].
  rewrite IH. apply Permutation_swap.
Qed.

Lemma list_sort_reverse_perm l : list_sort_reverse key l ≡ₚ l.
Proof.
  induction l as [|x l IH]; simpl; [done|].
  fold (list_sort_reverse key l). by rewrite insert_desc_perm, IH.
Qed.

Lemma insert_desc_sorted x l :
  StronglySorted (λ a b, (key b ≤ key a)%Z) l →
  StronglySorted (λ a b, (key b ≤ key a)%Z) (insert_desc key x l).
Proof.
  induction 1 as [|y l Hs IH Hy]; simpl.
  - repeat constructor.
  - destruct (key x <? key y)%Z eqn:E.
    + apply Z.ltb_lt in E. constructor; [done|].
      rewrite insert_desc_perm. constructor; [lia|done].
    + apply Z.ltb_ge in E. constructor; [by constructor|].
      constructor; [done|]. eapply Forall_impl; [exact Hy|].
      intros b ?; simpl in *; lia.
Qed.

Lemma list_sort_reverse_sorted l :
  StronglySorted (λ a b, (key b ≤ key a)%Z) (list_sort_reverse key l).
Proof.
  induction l as [|x l IH]; simpl; [constructor|].
  by apply insert_desc_sorted.
Qed.

Lemma insert_desc_filter t x l :
  filter (λ a, key a = t) (insert_desc key x l) = filter (λ a, key a = t) (x :: l).
Proof.
  induction l as [|y l IH]; simpl; [done|].
  destruct (key x <? key y)%Z eqn:E; [|done].
  apply Z.ltb_lt in E. rewrite (filter_cons _ y), IH, !filter_cons.
  repeat case_decide; try done; lia.
Qed.

Lemma list_sort_reverse_stable t l :
  filter (λ a, key a = t) (list_sort_reverse key l) = filter (λ a, key a = t) l.
Proof.
  induction l as [|x l IH]; simpl; [done|].
  fold (list_sort_reverse key l).
  by rewrite insert_desc_filter, !filter_cons, IH.
Qed.

Lemma StronglySorted_lookup (R : A → A → Prop) l i j a b :
  StronglySorted R l → i < j → l !! i = Some a → l !! j = Some b → R a b.
Proof.
  intros Hs. revert i j. induction Hs as [|y l Hs IH Hy]; intros i j Hij Hi Hj.
  - by rewrite lookup_nil in Hi.
  - destruct j as [|j]; [lia|]. destruct i as [|i]; simpl in *.
    + injection Hi as <-. rewrite Forall_forall in Hy. apply Hy.
      by eapply list_elem_of_lookup_2.
    + apply (IH i j); [lia|done..].
Qed.

End Sort.

(** C6. The ranking is a stable sort by [published], newest first: the
    output is a rearrangement of the input; of two output positions the
    earlier one never holds the older item, so items with distinct
    timestamps appear newer first; and the items sharing any one timestamp
    appear in the order they had in the input (the order the deduplication
    pass left them in). *)
Theorem rank_sorted_stable (unique_items : list NewsItem) :
  rank unique_items ≡ₚ unique_items
  ∧ StronglySorted (λ a b, (published b ≤ published a)%Z) (rank unique_items)
  ∧ (∀ i j a b, i < j → rank unique_items !! i = Some a →
       rank unique_items !! j = Some b → (published b ≤ published a)%Z)
  ∧ (∀ t, filter (λ a, published a = t) (rank unique_items)
          = filter (λ a, published a = t) unique_items).
Proof.
  forget_world. unfold rank. split_and!.
  - apply list_sort_reverse_perm.
  - apply list_sort_reverse_sorted.
  - intros i j a b Hij Hi Hj.
    by apply (StronglySorted_lookup _ _ _ _ _ _ (list_sort_reverse_sorted published unique_items) Hij Hi Hj).
  - intros t. apply list_sort_reverse_stable.
Qed.

(** ** Reading one source *)

Lemma filter_sublist_mono {A} (P : A → Prop) `{!∀ x, Decision (P x)} (l1 l2 : list A) :
  l1 `sublist_of` l2 → filter P l1 `sublist_of` filter P l2.
Proof.
  induction 1 as [|x l1 l2 _ IH|x l1 l2 _ IH]; [done|..];
    rewrite ?filter_cons; case_decide; try done.
  - by apply sublist_skip.
  - by apply sublist_cons.
Qed.

Lemma List_filter_sublist {A} (p : A → bool) (l : list A) :
  List.filter p l `sublist_of` l.
Proof.
  induction l as [|y l IH]; simpl; [done|].
  destruct (p y); [by apply sublist_skip|by apply sublist_cons].
Qed.

Lemma filter_none {A} (P : A → Prop) `{!∀ x, Decision (P x)} (l : list A) :
  Forall (λ x, ¬ P x) l → filter P l = [].
Proof.
  induction 1 as [|x l Hx _ IH]; [done|].
  by rewrite filter_cons, decide_False.
Qed.

Lemma advance_0 st : advance st 0 = st.
Proof. destruct st. unfold advance. simpl. by rewrite Nat.add_0_r. Qed.

Lemma advance_advance st m n : advance (advance st m) n = advance st (m + n).
Proof. unfold advance. simpl. by rewrite Nat.add_assoc. Qed.

Lemma normalize_entry_spec source_name entry st :
  normalize_entry source_name entry st =
  (if malformed entry
   then Raised (Raise ValueError (u "datetime field is out of range"))
   else Ok (item_of source_name entry (clock (ticks st))),
   advance st 1).
Proof.
  unfold normalize_entry, malformed, item_of, chosen_time, bind, datetime_now,
    lift, ret, datetime_of, advance. simpl. rewrite Nat.add_1_r.
  destruct (published_parsed entry) as [t|]; [|destruct (updated_parsed entry) as [t|]];
    try destruct (valid_fields t); done.
Qed.

Lemma fetch_rss_loop_spec source_name entries items st :
  fetch_rss_loop source_name entries items st =
  (items ++ imap (λ i e, item_of source_name e (clock (ticks st + i))) (good_prefix entries),
   if forallb (λ e, negb (malformed e)) entries then None
   else Some (Raise ValueError (u "datetime field is out of range")),
   advance st (length (good_prefix entries)
               + (if forallb (λ e, negb (malformed e)) entries then 0 else 1))).
Proof.
  revert items st. induction entries as [|e entries IH]; intros items st.
  - simpl. by rewrite app_nil_r, advance_0.
  - cbn [fetch_rss_loop good_prefix forallb]. rewrite normalize_entry_spec.
    destruct (malformed e) eqn:Hm.
    + simpl. by rewrite app_nil_r.
    + rewrite IH, imap_cons, <- app_assoc, advance_advance. simpl.
      rewrite Nat.add_0_r. do 4 f_equal.
      apply imap_ext. intros i x _. simpl. do 2 f_equal. lia.
Qed.


Lemma good_prefix_app pre bad post :
  Forall (λ e, malformed e = false) pre → malformed bad = true →
  good_prefix (pre ++ bad :: post) = pre.
Proof.
  intros Hpre Hbad. induction Hpre as [|e pre He _ IH]; simpl.
  - by rewrite Hbad.
  - by rewrite He, IH.
Qed.

Lemma good_prefix_prefix entries : good_prefix entries `prefix_of` entries.
Proof.
  induction entries as [|e entries IH]; simpl; [done|].
  destruct (malformed e); [apply prefix_nil|by apply prefix_cons].
Qed.

Lemma fetch_rss_spec url source_name st :
  fetch_rss url source_name st =
  match feedparser_parse url with
  | Raised _ => (Ok [], st)
  | Ok entries =>
      (Ok (imap (λ i e, item_of source_name e (clock (ticks st + i)))
             (good_prefix (take 20 entries))),
       advance st (length (good_prefix (take 20 entries))
                   + (if forallb (λ e, negb (malformed e)) (take 20 entries)
                      then 0 else 1)))
  end.
Proof.
  unfold fetch_rss. destruct (feedparser_parse url) as [entries|e]; [|done].
  by rewrite fetch_rss_loop_spec.
Qed.

Lemma fetch_rss_total url source_name st :
  ∃ items n, fetch_rss url source_name st = (Ok items, advance st n)
    ∧ length items ≤ 20
    ∧ Forall (λ it, source it = source_name) items.
Proof.
  rewrite fetch_rss_spec. destruct (feedparser_parse url) as [entries|e].
  - eexists _, _. split; [done|]. split.
    + rewrite length_imap.
      etransitivity; [apply prefix_length, good_prefix_prefix|].
      rewrite length_take. lia.
    + apply Forall_forall. intros it Hit.
      apply elem_of_lookup_imap in Hit as (i & e & -> & _). done.
  - exists [], 0. rewrite advance_0. split_and!; [done|simpl; lia|done].
Qed.

Lemma fetched_items_spec sources st :
  ∃ raw n, fetched_items sources st = (Ok raw, advance st n)
    ∧ Forall (λ it, source it ∈ sources.*1) raw
    ∧ (NoDup sources.*1 → ∀ s, length (filter (λ it, source it = s) raw) ≤ 20).
Proof.
  revert st. induction sources as [|[name url] sources IH]; intros st.
  - exists [], 0. rewrite advance_0. split_and!; [done..|].
    intros _ s. simpl. lia.
  - destruct (fetch_rss_total url name st) as (items & n & Hf & Hlen & Hsrc).
    destruct (IH (advance st n)) as (more & k & Hm & Hin & Hcap).
    exists (items ++ more), (n + k). cbn [fetched_items]. unfold bind at 1.
    rewrite Hf. unfold bind at 1. rewrite Hm, advance_advance.
    split; [done|]. split.
    + apply Forall_app. split.
      * eapply Forall_impl; [exact Hsrc|]. intros it ->. by left.
      * eapply Forall_impl; [exact Hin|]. intros it ?. by right.
    + rewrite fmap_cons. intros [Hname Hnd]%NoDup_cons s.
      rewrite filter_app, length_app.
      destruct (decide (s = name)) as [->|Hne].
      * assert (filter (λ it, source it = name) more = []) as ->.
        { apply filter_none, Forall_forall. intros it Hit Heq.
          rewrite Forall_forall in Hin. apply Hname. rewrite <- Heq. by apply Hin. }
        pose proof (length_filter (λ it, source it = name) items).
        simpl. lia.
      * assert (filter (λ it, source it = s) items = []) as ->.
        { apply filter_none, Forall_forall. intros it Hit Heq.
          rewrite Forall_forall in Hsrc. apply Hne. rewrite <- Heq. by apply Hsrc. }
        simpl. by apply Hcap.
Qed.

Lemma fetch_sources_spec sources cutoff all_items st raw st' :
  fetched_items sources st = (Ok raw, st') →
  fetch_sources sources cutoff all_items st =
  (Ok (all_items ++ List.filter (passes_filters cutoff) raw), st').
Proof.
  revert all_items st raw. induction sources as [|[name url] sources IH];
    intros all_items st raw.
  - simpl. unfold ret. intros [= <- <-]. by rewrite app_nil_r.
  - cbn [fetched_items fetch_sources]. unfold bind at 1 3.
    destruct (fetch_rss_total url name st) as (items & n & -> & _).
    unfold bind at 1.
    destruct (fetched_items_spec sources (advance st n)) as (more & k & Hm & _).
    rewrite Hm. unfold ret. intros [= <- <-].
    rewrite (IH _ _ _ Hm). by rewrite List.filter_app, app_assoc.
Qed.


Lemma fetch_sources_acc sources cutoff all_items st :
  ∃ merged st',
    fetch_sources sources cutoff [] st = (Ok merged, st')
    ∧ fetch_sources sources cutoff all_items st = (Ok (all_items ++ merged), st').
Proof.
  destruct (fetched_items_spec sources st) as (raw & n & Hraw & _).
  exists (List.filter (passes_filters cutoff) raw), (advance st n).
  split; by rewrite (fetch_sources_spec _ _ _ _ _ _ Hraw).
Qed.

Lemma fetch_sources_app before after cutoff all_items st merged st' :
  fetch_sources before cutoff all_items st = (Ok merged, st') →
  fetch_sources (before ++ after) cutoff all_items st
  = fetch_sources after cutoff merged st'.
Proof.
  revert all_items st. induction before as [|[name url] before IH];
    intros all_items st.
  - simpl. unfold ret. by intros [= <- <-].
  - rewrite <- app_comm_cons. cbn [fetch_sources]. unfold bind at 1 2.
    destruct (fetch_rss_total url name st) as (items & n & -> & _).
    apply IH.
Qed.


Lemma sub_hours_Ok t hours cutoff :
  sub_hours t hours = Ok cutoff →
  cutoff = (t - hours * 3600 * US_PER_SECOND)%Z ∧ in_range cutoff = true.
Proof.
  unfold sub_hours, timedelta_hours, sub_timedelta.
  destruct (negb _); [done|]. destruct (negb _); [done|].
  destruct (in_range _) eqn:Hr; [|done]. intros [= <-]. by split.
Qed.

Lemma datetime_now_spec st : datetime_now st = (Ok (clock (ticks st)), advance st 1).
Proof. unfold datetime_now, advance. by rewrite Nat.add_1_r. Qed.

Lemma fetch_all_spec hours st cutoff raw st' :
  sub_hours (clock (ticks st)) hours = Ok cutoff →
  fetched_items RSS_SOURCES (advance st 1) = (Ok raw, st') →
  fetch_all hours st =
  (Ok (rank (deduplicate (List.filter (passes_filters cutoff) raw))), st').
Proof.
  intros Hcut Hraw. unfold fetch_all. unfold bind at 1.
  rewrite datetime_now_spec. unfold bind at 1, lift at 1. rewrite Hcut.
  unfold bind at 1. by rewrite (fetch_sources_spec _ _ _ _ _ _ Hraw).
Qed.

(** C2 (amended). Reading a source never raises. A source whose read fails
    contributes no item. When an entry among the first 20 cannot be
    normalized, the source contributes the items of the entries before it
    and nothing else: that entry and every entry after it are left out.
    Whatever happens in one source, the loop over the sources goes on to
    the end: wherever the source stands in the list, the sources after it
    are read, from the state it leaves, and their items follow its own;
    and a source whose read fails leaves the result of the loop as it is
    without that source. *)
Theorem fetch_rss_failure_isolation (url source_name : pystr) (st : St) :
  ∃ items st',
    fetch_rss url source_name st = (Ok items, st')
    ∧ (∀ e, feedparser_parse url = Raised e → items = [] ∧ st' = st)
    ∧ (∀ entries, feedparser_parse url = Ok entries →
         items = imap (λ i e, item_of source_name e (clock (ticks st + i)))
                   (good_prefix (take 20 entries))
         ∧ ∀ pre bad post,
             take 20 entries = pre ++ bad :: post →
             Forall (λ e, malformed e = false) pre → malformed bad = true →
             items = imap (λ i e, item_of source_name e (clock (ticks st + i))) pre
             ∧ length items = length pre)
    ∧ (∀ entry st0,
         (∃ e, (normalize_entry source_name entry st0).1 = Raised e)
         ↔ malformed entry = true)
    ∧ (∀ before after cutoff_time all_items st0,
         ∃ merged st1 items1 st2 rest st3,
           fetch_sources before cutoff_time all_items st0 = (Ok merged, st1)
           ∧ fetch_rss url source_name st1 = (Ok items1, st2)
           ∧ fetch_sources after cutoff_time [] st2 = (Ok rest, st3)
           ∧ fetch_sources (before ++ (source_name, url) :: after) cutoff_time
               all_items st0
             = (Ok (merged ++ List.filter (passes_filters cutoff_time) items1 ++ rest),
                st3))
    ∧ (∀ e, feedparser_parse url = Raised e →
         ∀ before after cutoff_time all_items st0,
           fetch_sources (before ++ (source_name, url) :: after) cutoff_time
             all_items st0
           = fetch_sources (before ++ after) cutoff_time all_items st0).
Proof.
  assert (∀ before after cutoff_time all_items st0,
            ∃ merged st1 items1 st2 rest st3,
              fetch_sources before cutoff_time all_items st0 = (Ok merged, st1)
              ∧ fetch_rss url source_name st1 = (Ok items1, st2)
              ∧ fetch_sources after cutoff_time [] st2 = (Ok rest, st3)
              ∧ fetch_sources (before ++ (source_name, url) :: after) cutoff_time
                  all_items st0
                = (Ok (merged ++ List.filter (passes_filters cutoff_time) items1
                       ++ rest), st3)) as Hgoes_on.
  { intros before after cutoff all_items st0.
    destruct (fetch_sources_acc before cutoff all_items st0)
      as (m0 & st1 & _ & Hbefore).
    destruct (fetch_rss_total url source_name st1) as (items1 & n & Hread & _).
    destruct (fetch_sources_acc after cutoff
                ((all_items ++ m0) ++ List.filter (passes_filters cutoff) items1)
                (advance st1 n)) as (rest & st3 & Hrest & Hafter).
    exists (all_items ++ m0), st1, items1, (advance st1 n), rest, st3.
    split_and!; [done..|].
    rewrite (fetch_sources_app _ _ _ _ _ _ _ Hbefore). cbn [fetch_sources].
    unfold bind at 1. rewrite Hread, Hafter. by rewrite <- !app_assoc. }
  assert (∀ e, feedparser_parse url = Raised e →
            ∀ before after cutoff_time all_items st0,
              fetch_sources (before ++ (source_name, url) :: after) cutoff_time
                all_items st0
              = fetch_sources (before ++ after) cutoff_time all_items st0)
    as Hunread.
  { intros e He before after cutoff all_items st0.
    destruct (fetch_sources_acc before cutoff all_items st0)
      as (m0 & st1 & _ & Hbefore).
    rewrite !(fetch_sources_app _ _ _ _ _ _ _ Hbefore). cbn [fetch_sources].
    unfold bind at 1. rewrite fetch_rss_spec, He. simpl. by rewrite app_nil_r. }
  rewrite fetch_rss_spec. destruct (feedparser_parse url) as [entries|e] eqn:Hp.
  - eexists _, _. split; [done|]. split_and!.
    + intros e [=].
    + intros ? [= <-]. split; [done|]. intros pre bad post Heq Hpre Hbad.
      rewrite Heq, good_prefix_app by done. by rewrite length_imap.
    + intros entry st0. rewrite normalize_entry_spec. simpl.
      destruct (malformed entry); split; try done; [eauto|by intros [? ?]].
    + exact Hgoes_on.
    + exact Hunread.
  - exists [], st. split; [done|]. split_and!.
    + done.
    + intros ? [=].
    + intros entry st0. rewrite normalize_entry_spec. simpl.
      destruct (malformed entry); split; try done; [eauto|by intros [? ?]].
    + exact Hgoes_on.
    + exact Hunread.
Qed.


Lemma RSS_SOURCES_names_NoDup : NoDup RSS_SOURCES.*1.
Proof. forget_world. apply (bool_decide_unpack _). by vm_compute. Qed.

(** C10. Reading a source normalizes entries of the first 20 only and
    returns at most 20 items, all carrying the name of the source; hence no
    source has more than 20 items in the list [fetch_all] returns. *)
Theorem fetch_rss_per_source_cap (url source_name : pystr) (st : St) :
  ∃ items st',
    fetch_rss url source_name st = (Ok items, st')
    ∧ length items ≤ 20
    ∧ Forall (λ it, source it = source_name) items
    ∧ (∀ entries, feedparser_parse url = Ok entries →
         ∃ kept, kept `prefix_of` take 20 entries
           ∧ items = imap (λ i e, item_of source_name e (clock (ticks st + i))) kept)
    ∧ (∀ hours st0 corpus st1 s,
         fetch_all hours st0 = (Ok corpus, st1) →
         length (filter (λ it, source it = s) corpus) ≤ 20).
Proof.
  destruct (fetch_rss_total url source_name st) as (items & n & Hf & Hlen & Hsrc).
  exists items, (advance st n). split_and!; [done..| |].
  - intros entries Hp. exists (good_prefix (take 20 entries)).
    split; [apply good_prefix_prefix|].
    rewrite fetch_rss_spec, Hp in Hf. by injection Hf as <- _.
  - intros hours st0 corpus st1 s Hall.
    destruct (fetched_items_spec RSS_SOURCES (advance st0 1))
      as (raw & k & Hraw & _ & Hcap).
    destruct (sub_hours (clock (ticks st0)) hours) as [cutoff|e] eqn:Hcut.
    + rewrite (fetch_all_spec _ _ _ _ _ Hcut Hraw) in Hall.
      injection Hall as <- _.
      etransitivity; [|apply (Hcap RSS_SOURCES_names_NoDup s)].
      unfold rank. rewrite list_sort_reverse_perm.
      apply sublist_length, filter_sublist_mono.
      etransitivity; [apply dedup_loop_sublist|apply List_filter_sublist].
    + unfold fetch_all in Hall. unfold bind at 1 in Hall.
      rewrite datetime_now_spec in Hall. unfold bind at 1, lift at 1 in Hall.
      rewrite Hcut in Hall. done.
Qed.


(** ** The corpus *)

Lemma dedup_loop_elem_iff seen l x :
  x ∈ dedup_loop seen [] l ↔
  ∃ pre post, l = pre ++ x :: post ∧ (id x ∉ seen) ∧ (id x ∉ id <$> pre).
Proof.
  forget_world. revert seen. induction l as [|y l IH]; intros seen.
  - simpl. split; [by intros ?%elem_of_nil|].
    intros ([|??] & ? & ? & _); done.
  - rewrite dedup_loop_cons. destruct (decide (id y ∈ seen)) as [Hy|Hy].
    + rewrite IH. split.
      * intros (pre & post & -> & Hs & Hp). exists (y :: pre), post.
        split_and!; [done..|]. rewrite fmap_cons, not_elem_of_cons.
        split; [congruence|done].
      * intros ([|z pre] & post & Heq & Hs & Hp); simplify_eq/=; [done|].
        apply not_elem_of_cons in Hp as [_ Hp]. eauto.
    + rewrite elem_of_cons, IH. split.
      * intros [->|(pre & post & -> & Hs & Hp)].
        -- exists [], l. split_and!; [done..|]. by intros ?%elem_of_nil.
        -- exists (y :: pre), post.
           apply not_elem_of_union in Hs as [Hxy%not_elem_of_singleton Hs].
           split_and!; [done..|]. rewrite fmap_cons, not_elem_of_cons. done.
      * intros ([|z pre] & post & Heq & Hs & Hp); simplify_eq/=; [by left|].
        apply not_elem_of_cons in Hp as [Hxy Hp]. right.
        exists pre, post. split_and!; [done| |done].
        apply not_elem_of_union. split; [|done]. by apply not_elem_of_singleton.
Qed.

Lemma List_filter_split {A} (p : A → bool) (l pre post : list A) x :
  List.filter p l = pre ++ x :: post →
  ∃ pre' post', l = pre' ++ x :: post' ∧ List.filter p pre' = pre ∧ p x = true.
Proof.
  revert pre. induction l as [|y l IH]; intros pre; simpl.
  - by destruct pre.
  - destruct (p y) eqn:Hpy.
    + destruct pre as [|z pre]; simpl.
      * intros [= -> _]. by exists [], l.
      * intros [= -> Heq]. destruct (IH _ Heq) as (pre' & post' & -> & <- & ?).
        exists (z :: pre'), post'. simpl. by rewrite Hpy.
    + intros Heq. destruct (IH _ Heq) as (pre' & post' & -> & <- & ?).
      exists (y :: pre'), post'. simpl. by rewrite Hpy.
Qed.

Lemma elem_of_List_filter {A} (p : A → bool) (l : list A) x :
  x ∈ List.filter p l ↔ x ∈ l ∧ p x = true.
Proof. rewrite !list_elem_of_In. apply List.filter_In. Qed.

(** C3 (amended). When the cutoff can be computed, [fetch_all] returns a
    list, and a fetched item is in it exactly when it passes the relevance
    test and the time test and no fetched item before it passes both tests
    and has its fingerprint. In particular every item of the list was
    fetched and passes both tests. *)
Theorem fetch_all_corpus_membership (hours : Z) (st : St) (cutoff : datetime) :
  sub_hours (clock (ticks st)) hours = Ok cutoff →
  ∃ raw corpus st',
    fetched_items RSS_SOURCES (advance st 1) = (Ok raw, st')
    ∧ fetch_all hours st = (Ok corpus, st')
    ∧ (∀ x, x ∈ corpus → x ∈ raw ∧ passes_filters cutoff x = true)
    ∧ (∀ x, x ∈ corpus ↔
         ∃ pre post, raw = pre ++ x :: post
           ∧ passes_filters cutoff x = true
           ∧ ∀ y, y ∈ pre → passes_filters cutoff y = true → id y ≠ id x)
    ∧ (∀ x, passes_filters cutoff x = true ↔
         (cutoff ≤ published x)%Z ∧ _is_relevant x = true).
Proof.
  intros Hcut.
  destruct (fetched_items_spec RSS_SOURCES (advance st 1)) as (raw & k & Hraw & _).
  eexists raw, _, _. split; [done|]. split; [by apply fetch_all_spec|].
  assert (∀ x, x ∈ rank (deduplicate (List.filter (passes_filters cutoff) raw))
            ↔ x ∈ dedup_loop ∅ [] (List.filter (passes_filters cutoff) raw)) as Hrank.
  { intros x. unfold rank. by rewrite list_sort_reverse_perm. }
  split_and!.
  - intros x Hx. apply Hrank, dedup_loop_elem in Hx as [Hx _].
    by apply elem_of_List_filter.
  - intros x. rewrite Hrank, dedup_loop_elem_iff. split.
    + intros (pre & post & Heq & _ & Hpre).
      apply List_filter_split in Heq as (pre' & post' & -> & <- & Hpx).
      exists pre', post'. split_and!; [done..|]. intros y Hy Hpy Hid.
      apply Hpre. rewrite <- Hid. apply list_elem_of_fmap_2.
      by apply elem_of_List_filter.
    + intros (pre & post & -> & Hpx & Hpre).
      exists (List.filter (passes_filters cutoff) pre),
        (List.filter (passes_filters cutoff) post).
      rewrite List.filter_app. simpl. rewrite Hpx.
      split_and!; [done|apply not_elem_of_empty|].
      intros (y & Hid & [Hy Hpy]%elem_of_List_filter)%list_elem_of_fmap.
      by apply (Hpre y).
  - intros x. unfold passes_filters, in_time_window.
    by rewrite andb_true_iff, Z.leb_le.
Qed.



(** ** Formatting *)

(** C4 (amended). Called with a date, [format_as_blog_post] always returns
    a document; its title and its excerpt are the same for the same items,
    item count and date, whenever the call is made; its content is the same
    as well if the two calls read the same minute off the clock, which the
    footer of the content shows. *)
Theorem format_as_blog_post_determined (items : list NewsItem) (max_items : Z)
    (date : datetime) (st1 st2 : St) :
  (∃ title content1 content2 excerpt,
     (format_as_blog_post items max_items (Some date) st1).1
       = Ok (title, content1, excerpt)
     ∧ (format_as_blog_post items max_items (Some date) st2).1
       = Ok (title, content2, excerpt))
  ∧ (strftime_stamp (clock (ticks st1)) = strftime_stamp (clock (ticks st2)) →
     (format_as_blog_post items max_items (Some date) st1).1
     = (format_as_blog_post items max_items (Some date) st2).1).
Proof.
  cbv beta iota zeta delta [format_as_blog_post bind ret datetime_now fst].
  split.
  - eexists _, _, _, _. split; reflexivity.
  - intros ->. reflexivity.
Qed.


(** ** Publishing *)

Lemma create_post_ok title content status categories tags excerpt image slug st post st' :
  create_post title content status categories tags excerpt image slug st = (Ok post, st') →
  ∃ d, post = VDict d ∧ is_Some (dict_get (u "link") d).
Proof.
  unfold create_post, bind, requests_call, lift, raise, ret.
  destruct (requests_send _ _) as [response|e]; [|done].
  destruct (status_code response =? 201)%Z; [|done].
  destruct (json response) as [v|e]; [|done].
  destruct (subscript v (u "link")) as [l|e] eqn:Hl; [|done].
  intros [= <- _]. destruct v as [| | | | |d]; try done.
  exists d. split; [done|]. unfold subscript in Hl.
  destruct (dict_get (u "link") d); [by eexists|done].
Qed.

Lemma batch_document_ok i batch_items items_per_post st :
  ∃ doc, batch_document i batch_items items_per_post st = (Ok doc, advance st 3).
Proof.
  unfold batch_document, format_as_blog_post.
  cbv beta iota zeta delta [bind ret]. rewrite !datetime_now_spec.
  rewrite !advance_advance. simpl. by eexists.
Qed.

Lemma publish_batch_spec i batch_items items_per_post results st :
  publish_batch i batch_items items_per_post results st =
  let '(o, st') := submission i batch_items items_per_post st in
  (Ok (results ++ [result_of o]), st').
Proof.
  unfold publish_batch, submission. unfold bind at 1 4.
  destruct (batch_document_ok i batch_items items_per_post st) as [[[t c] e] ->].
  unfold try_except at 1. unfold bind at 1.
  destruct (submit_document (t, c, e) (advance st 3)) as [[post|err] st1] eqn:Hs;
    [|done].
  unfold submit_document, get_ai_category_id, get_tag_ids in Hs.
  unfold bind at 1 2 in Hs.
  apply create_post_ok in Hs as (d & -> & [l Hl]).
  unfold try_except, bind, lift, subscript. by rewrite Hl.
Qed.

Lemma publish_loop_spec remaining i all_items items_per_post results st :
  publish_loop remaining i all_items items_per_post results st =
  let '(os, st') :=
    run_submissions (batch_plan remaining i all_items items_per_post) items_per_post st in
  (Ok (results ++ (result_of <$> os)), st').
Proof.
  revert i results st. induction remaining as [|n IH]; intros i results st.
  - simpl. unfold ret. by rewrite app_nil_r.
  - cbn [publish_loop batch_plan].
    destruct (batch_slice all_items items_per_post i) as [|x batch].
    + simpl. unfold ret. by rewrite app_nil_r.
    + cbn [run_submissions]. unfold bind at 1. rewrite publish_batch_spec.
      destruct (submission i (x :: batch) items_per_post st) as [o st1].
      rewrite IH.
      destruct (run_submissions _ items_per_post st1) as [os st2].
      by rewrite fmap_cons, <- app_assoc.
Qed.

Lemma run_submissions_length batches items_per_post st :
  length (run_submissions batches items_per_post st).1 = length batches.
Proof.
  revert st. induction batches as [|[i b] batches IH]; intros st; [done|].
  cbn [run_submissions]. destruct (submission i b items_per_post st) as [o st1].
  specialize (IH st1). destruct (run_submissions batches items_per_post st1).
  simpl in *. by rewrite IH.
Qed.

Lemma run_submissions_dicts batches items_per_post st :
  Forall (λ o, ∀ post, o = Ok post → ∃ d, post = VDict d)
    (run_submissions batches items_per_post st).1.
Proof.
  revert st. induction batches as [|[i b] batches IH]; intros st; [by constructor|].
  cbn [run_submissions].
  destruct (submission i b items_per_post st) as [o st1] eqn:Hs.
  specialize (IH st1). destruct (run_submissions batches items_per_post st1).
  simpl in *. constructor; [|done]. intros post ->.
  unfold submission in Hs. unfold bind at 1 in Hs.
  destruct (batch_document_ok i b items_per_post st) as [[[t c] e] Hd].
  rewrite Hd in Hs. unfold submit_document, get_ai_category_id, get_tag_ids in Hs.
  unfold bind at 1 2 in Hs.
  apply create_post_ok in Hs as (d & -> & _). by exists d.
Qed.

Lemma success_count_spec results :
  Forall (λ r, ∃ d, r = VDict d) results →
  success_count results = Ok (length (filter (λ r, is_error_result r = false) results)).
Proof.
  induction 1 as [|r results [d ->] _ IH]; [done|].
  cbn [success_count contains]. rewrite IH, filter_cons. simpl.
  destruct (dict_has (u "error") d); by case_decide.
Qed.

Lemma result_of_dicts os :
  Forall (λ o, ∀ post, o = Ok post → ∃ d, post = VDict d) os →
  Forall (λ r, ∃ d, r = VDict d) (result_of <$> os).
Proof.
  intros H. apply Forall_fmap. eapply Forall_impl; [exact H|].
  intros [post|e] Hp; simpl; [by apply Hp|by eexists].
Qed.

Lemma error_record_is_error e : is_error_result (error_record e) = true.
Proof. by vm_compute. Qed.

Lemma success_count_outcomes os :
  length (filter (λ r, is_error_result r = false) (result_of <$> os))
    ≤ length (filter (λ o, succeeded o = true) os)
  ∧ (Forall (λ o, ∀ post, o = Ok post → is_error_result post = false) os →
     length (filter (λ r, is_error_result r = false) (result_of <$> os))
     = length (filter (λ o, succeeded o = true) os)).
Proof.
  induction os as [|o os [IH1 IH2]]; [done|].
  rewrite fmap_cons, !filter_cons. destruct o as [post|e]; cbn [result_of succeeded].
  - rewrite (decide_True (P:=true = true)) by done. split.
    + case_decide; simpl; lia.
    + intros [Ho Hos]%Forall_cons. rewrite decide_True by by apply Ho.
      simpl. by rewrite IH2.
  - rewrite (decide_False (P:=false = true)) by done.
    rewrite error_record_is_error, (decide_False (P:=true = false)) by done.
    split; [done|]. intros [_ Hos]%Forall_cons. by apply IH2.
Qed.


Lemma create_post_kwargs_ok post_data st post st' :
  create_post_kwargs post_data st = (Ok post, st') → ∃ d, post = VDict d.
Proof.
  unfold create_post_kwargs. destruct (List.find _ post_data); [done|].
  destruct (dict_get (u "title") post_data); [|done].
  destruct (dict_get (u "content") post_data); [|done].
  intros (d & -> & _)%create_post_ok. by exists d.
Qed.

Lemma batch_publish_loop_spec posts results st :
  batch_publish_loop posts results st =
  let '(os, st') := run_posts posts st in
  (Ok (results ++ zip_with result_of_titled posts os), st').
Proof.
  revert results st. induction posts as [|post_data posts IH]; intros results st.
  - simpl. unfold ret. by rewrite app_nil_r.
  - cbn [batch_publish_loop run_posts]. unfold bind at 1, try_except, bind at 1.
    destruct (create_post_kwargs post_data st) as [[post|e] st1]; unfold ret;
      rewrite IH; destruct (run_posts posts st1) as [os st2];
      simpl; by rewrite <- app_assoc.
Qed.

Lemma run_posts_length posts st : length (run_posts posts st).1 = length posts.
Proof.
  revert st. induction posts as [|p posts IH]; intros st; [done|].
  cbn [run_posts]. destruct (create_post_kwargs p st) as [o st1].
  specialize (IH st1). destruct (run_posts posts st1). simpl in *. by rewrite IH.
Qed.

Lemma run_posts_dicts posts st :
  Forall (λ o, ∀ post, o = Ok post → ∃ d, post = VDict d) (run_posts posts st).1.
Proof.
  revert st. induction posts as [|p posts IH]; intros st; [by constructor|].
  cbn [run_posts]. destruct (create_post_kwargs p st) as [o st1] eqn:Hs.
  specialize (IH st1). destruct (run_posts posts st1). simpl in *.
  constructor; [|done]. intros post ->. by eapply create_post_kwargs_ok.
Qed.

Lemma result_of_titled_dicts posts os :
  Forall (λ o, ∀ post, o = Ok post → ∃ d, post = VDict d) os →
  Forall (λ r, ∃ d, r = VDict d) (zip_with result_of_titled posts os).
Proof.
  intros H. revert posts. induction H as [|o os Ho _ IH]; intros [|p posts];
    simpl; try by constructor.
  constructor; [|apply IH]. destruct o; simpl; [by apply Ho|by eexists].
Qed.

(** C8. In [publish_multiple] and in [batch_publish] every document is
    submitted, whatever happened to the ones before it; the result list
    has one entry per document, in the order of the documents: the post
    [create_post] returned, or an error record holding the text of the
    exception it raised. The success count never raises and is the number
    of results that are not error results; no failed submission is counted,
    and when no returned post has an ["error"] key the count is the number
    of submissions that succeeded. *)
Theorem batch_results_per_document :
  (∀ remaining i all_items items_per_post results st,
     ∃ outcomes st' n,
       run_submissions (batch_plan remaining i all_items items_per_post)
         items_per_post st = (outcomes, st')
       ∧ length outcomes = length (batch_plan remaining i all_items items_per_post)
       ∧ publish_loop remaining i all_items items_per_post results st
         = (Ok (results ++ (result_of <$> outcomes)), st')
       ∧ success_count (result_of <$> outcomes) = Ok n
       ∧ n = length (filter (λ r, is_error_result r = false) (result_of <$> outcomes))
       ∧ n ≤ length (filter (λ o, succeeded o = true) outcomes)
       ∧ (Forall (λ o, ∀ post, o = Ok post → is_error_result post = false) outcomes →
          n = length (filter (λ o, succeeded o = true) outcomes)))
  ∧ (∀ posts st,
       ∃ outcomes st' n,
         run_posts posts st = (outcomes, st')
         ∧ length outcomes = length posts
         ∧ batch_publish posts st
           = (Ok (zip_with result_of_titled posts outcomes), st')
         ∧ success_count (zip_with result_of_titled posts outcomes) = Ok n
         ∧ n = length (filter (λ r, is_error_result r = false)
                         (zip_with result_of_titled posts outcomes)))
  ∧ (∀ i batch_items rest items_per_post st,
       run_submissions ((i, batch_items) :: rest) items_per_post st =
       let '(o, st1) := submission i batch_items items_per_post st in
       let '(os, st2) := run_submissions rest items_per_post st1 in
       (o :: os, st2))
  ∧ (∀ post_data rest st,
       run_posts (post_data :: rest) st =
       let '(o, st1) := create_post_kwargs post_data st in
       let '(os, st2) := run_posts rest st1 in
       (o :: os, st2)).
Proof.
  split_and!; [| |done|done].
  - intros remaining i all_items k results st.
    pose proof (run_submissions_length (batch_plan remaining i all_items k) k st) as Hlen.
    pose proof (run_submissions_dicts (batch_plan remaining i all_items k) k st) as Hd.
    rewrite publish_loop_spec.
    destruct (run_submissions _ k st) as [os st'] eqn:Hrun. simpl in *.
    exists os, st', (length (filter (λ r, is_error_result r = false) (result_of <$> os))).
    split_and!; [done..| | | |].
    + by apply success_count_spec, result_of_dicts.
    + done.
    + apply success_count_outcomes.
    + apply success_count_outcomes.
  - intros posts st. unfold batch_publish. unfold bind at 1.
    rewrite batch_publish_loop_spec.
    pose proof (run_posts_length posts st) as Hlen.
    pose proof (run_posts_dicts posts st) as Hd.
    destruct (run_posts posts st) as [os st'] eqn:Hrun. simpl in *.
    pose proof (success_count_spec _ (result_of_titled_dicts posts os Hd)) as Hsc.
    exists os, st', (length (filter (λ r, is_error_result r = false)
                               (zip_with result_of_titled posts os))).
    split_and!; [done..| | |done].
    + unfold bind, lift, ret. by rewrite Hsc.
    + done.
Qed.


(** ** Partitioning into batches *)

Lemma effective_count_spec all_items count items_per_post :
  (0 < items_per_post)%Z → (0 ≤ count)%Z →
  effective_count all_items count items_per_post
  = Ok (Z.min count (Z.of_nat (length all_items) / items_per_post)).
Proof.
  intros Hk Hc. unfold effective_count.
  destruct (_ <? _)%Z eqn:Hlt.
  - apply Z.ltb_lt in Hlt. rewrite (proj2 (Z.eqb_neq _ _)) by lia. f_equal.
    assert (Z.of_nat (length all_items) / items_per_post < count)%Z
      by (apply Z.div_lt_upper_bound; lia). lia.
  - apply Z.ltb_ge in Hlt. f_equal.
    assert (count ≤ Z.of_nat (length all_items) / items_per_post)%Z
      by (apply Z.div_le_lower_bound; lia). lia.
Qed.

Lemma batch_slice_full (all_items : list NewsItem) (k j : nat) :
  (S j) * k ≤ length all_items →
  batch_slice all_items (Z.of_nat k) (Z.of_nat j) = take k (drop (j * k) all_items).
Proof.
  intros Hle. unfold batch_slice, py_slice, clamp_index.
  rewrite !(proj2 (Z.ltb_ge _ _)) by lia.
  rewrite !Z.min_l by lia. f_equal; [lia|]. f_equal. lia.
Qed.

Lemma batch_plan_full (all_items : list NewsItem) (k n i : nat) :
  0 < k → (i + n) * k ≤ length all_items →
  batch_plan n (Z.of_nat i) all_items (Z.of_nat k)
  = (λ j, (Z.of_nat j, take k (drop (j * k) all_items))) <$> seq i n.
Proof.
  intros Hk. revert i. induction n as [|n IH]; intros i Hle; [done|].
  cbn [batch_plan seq]. rewrite fmap_cons, batch_slice_full by lia.
  replace (Z.of_nat i + 1)%Z with (Z.of_nat (S i)) by lia.
  rewrite IH by lia.
  destruct (take k (drop (i * k) all_items)) as [|x b] eqn:Hb; [|done].
  apply (f_equal length) in Hb. rewrite length_take, length_drop in Hb.
  simpl in Hb. lia.
Qed.

Lemma concat_batches (all_items : list NewsItem) (k n i : nat) :
  concat ((λ j, take k (drop (j * k) all_items)) <$> seq i n)
  = take (n * k) (drop (i * k) all_items).
Proof.
  revert i. induction n as [|n IH]; intros i; [done|].
  cbn [seq]. rewrite fmap_cons. cbn [concat]. rewrite IH.
  replace (S i * k) with (i * k + k) by lia.
  rewrite <- drop_drop, take_take_drop. f_equal.
Qed.

Lemma fetch_all_NoDup hours st corpus st' :
  fetch_all hours st = (Ok corpus, st') → NoDup (id <$> corpus).
Proof.
  intros Hall.
  destruct (fetched_items_spec RSS_SOURCES (advance st 1)) as (raw & k & Hraw & _).
  destruct (sub_hours (clock (ticks st)) hours) as [cutoff|e] eqn:Hcut.
  - rewrite (fetch_all_spec _ _ _ _ _ Hcut Hraw) in Hall. injection Hall as <- _.
    unfold rank. rewrite list_sort_reverse_perm. apply dedup_loop_NoDup.
  - unfold fetch_all in Hall. unfold bind at 1 in Hall.
    rewrite datetime_now_spec in Hall. unfold bind at 1, lift at 1 in Hall.
    by rewrite Hcut in Hall.
Qed.

(** C1 (amended). With a positive batch size [k] and [N] items, the loop of
    [publish_multiple] runs for [min(count, floor(N / k))] batches: the
    requested number, cut down to [floor(N / k)] without an error when the
    items do not suffice. Batch [j] is the [k] items from position [j * k]
    on, so the batches are consecutive and share no position (and no
    fingerprint); the items after the last batch are in no batch. Each
    batch is submitted and gives one result. *)
Theorem publish_multiple_batches (count hours_per_batch items_per_post : Z)
    (st st_a st_b st_c : St) (all_items : list NewsItem) :
  (0 < items_per_post)%Z →
  (0 ≤ count)%Z →
  test_connection st = (Ok true, st_a) →
  setup_taxonomy st_a = (Ok tt, st_b) →
  fetch_all (hours_per_batch * count) st_b = (Ok all_items, st_c) →
  let k := Z.to_nat items_per_post in
  let produced := Z.min count (Z.of_nat (length all_items) / items_per_post) in
  let m := Z.to_nat produced in
  let batches := batch_plan m 0 all_items items_per_post in
  effective_count all_items count items_per_post = Ok produced
  ∧ ((Z.of_nat (length all_items) < count * items_per_post)%Z →
     produced = (Z.of_nat (length all_items) / items_per_post)%Z)
  ∧ batches = (λ j, (Z.of_nat j, take k (drop (j * k) all_items))) <$> seq 0 m
  ∧ length batches = m
  ∧ Forall (λ b, length b.2 = k) batches
  ∧ concat batches.*2 = take (m * k) all_items
  ∧ NoDup (id <$> concat batches.*2)
  ∧ ∃ outcomes st',
      run_submissions batches items_per_post st_c = (outcomes, st')
      ∧ length outcomes = m
      ∧ publish_multiple count hours_per_batch items_per_post st
        = (Ok (result_of <$> outcomes), st').
Proof.
  intros Hk Hc Hconn Htax Hfetch k produced m batches.
  assert (0 ≤ Z.of_nat (length all_items) / items_per_post)%Z as Hq
    by (apply Z.div_pos; lia).
  assert (m * k ≤ length all_items) as Hmk.
  { assert (produced * items_per_post ≤ Z.of_nat (length all_items))%Z.
    { etransitivity; [|apply (Z.mul_div_le _ items_per_post); lia].
      rewrite (Z.mul_comm items_per_post). apply Z.mul_le_mono_nonneg_r; lia. }
    subst m k. nia. }
  assert (batches = (λ j, (Z.of_nat j, take k (drop (j * k) all_items))) <$> seq 0 m)
    as Hplan.
  { subst batches. replace items_per_post with (Z.of_nat k) by (subst k; lia).
    apply (batch_plan_full all_items k m 0); subst k; lia. }
  assert (concat batches.*2 = take (m * k) all_items) as Hcat.
  { rewrite Hplan, <- list_fmap_compose.
    exact (concat_batches all_items k m 0). }
  split_and!.
  - by apply effective_count_spec.
  - intros Hlt. subst produced.
    assert (Z.of_nat (length all_items) / items_per_post < count)%Z
      by (apply Z.div_lt_upper_bound; lia). lia.
  - done.
  - by rewrite Hplan, length_fmap, length_seq.
  - rewrite Hplan. apply Forall_fmap, Forall_forall. intros j Hj%elem_of_seq.
    simpl. rewrite length_take, length_drop. nia.
  - done.
  - rewrite Hcat, fmap_take. eapply sublist_NoDup; [|apply sublist_take].
    by eapply fetch_all_NoDup.
  - pose proof (run_submissions_length batches items_per_post st_c) as Hlen.
    destruct (run_submissions batches items_per_post st_c) as [os st'] eqn:Hrun.
    exists os, st'. split; [done|]. split.
    { simpl in Hlen. by rewrite Hlen, Hplan, length_fmap, length_seq. }
    unfold publish_multiple. unfold bind at 1. rewrite Hconn. simpl.
    unfold bind at 1. rewrite Htax. unfold bind at 1. rewrite Hfetch.
    unfold bind at 1, lift at 1. rewrite effective_count_spec by done.
    unfold bind at 1. rewrite publish_loop_spec. fold produced m batches.
    rewrite Hrun. simpl.
    pose proof (run_submissions_dicts batches items_per_post st_c) as Hd.
    rewrite Hrun in Hd. simpl in Hd.
    unfold bind, lift, ret.
    by rewrite (success_count_spec _ (result_of_dicts _ Hd)).
Qed.


(** * Further properties *)

(** ** Cleaning of summaries *)

(** No character of [buf] or of the text is a [>]: the text comes out as it
    is. *)
Lemma strip_tags_go_open buf s :
  62%N ∉ s → strip_tags_go (Some buf) s = buf ++ s.
Proof.
  forget_world. revert buf. induction s as [|c s IH]; intros buf Hs.
  - simpl. by rewrite app_nil_r.
  - apply not_elem_of_cons in Hs as [Hc Hs]. simpl.
    rewrite (proj2 (N.eqb_neq c 62)) by done.
    rewrite IH by done. by rewrite <- app_assoc.
Qed.

Lemma tag_free_cons c t : c ≠ 60%N → tag_free t → tag_free (c :: t).
Proof.
  forget_world. intros Hc Ht [|x pre] rest Heq; simplify_eq/=. by eapply Ht.
Qed.

Lemma tag_free_tail c t : tag_free (c :: t) → tag_free t.
Proof.
  forget_world. intros Ht pre rest ->. by apply (Ht (c :: pre) rest).
Qed.

Lemma tag_free_empty_tag t : tag_free t → tag_free (60%N :: 62%N :: t).
Proof.
  forget_world. intros Ht [|x [|y pre]] rest Heq; simplify_eq/=.
  - left. by eexists.
  - by eapply Ht.
Qed.

Lemma tag_free_no_close t : 62%N ∉ t → tag_free t.
Proof.
  forget_world. intros Ht pre rest ->. right. intros Hin. apply Ht.
  apply elem_of_app. right. by right.
Qed.

Lemma strip_tags_go_tag_free s :
  tag_free (strip_tags_go None s)
  ∧ ∀ b, 62%N ∉ b → tag_free (strip_tags_go (Some (60%N :: b)) s).
Proof.
  forget_world. induction s as [|c s [IHn IHs]].
  - split; [by intros [|??] ??|]. intros b Hb.
    simpl. apply tag_free_no_close, not_elem_of_cons. by split.
  - split.
    + simpl. destruct (c =? 60)%N eqn:Hc.
      * apply N.eqb_eq in Hc as ->. apply (IHs []). by intros ?%elem_of_nil.
      * apply N.eqb_neq in Hc. by apply tag_free_cons.
    + intros b Hb. simpl. destruct (c =? 62)%N eqn:Hc.
      * apply N.eqb_eq in Hc as ->.
        destruct b as [|x b]; simpl; [by apply tag_free_empty_tag|done].
      * apply N.eqb_neq in Hc. apply (IHs (b ++ [c])).
        intros [?|Hin]%elem_of_app; [done|].
        apply elem_of_cons in Hin as [?|?%elem_of_nil]; [congruence|done].
Qed.

Lemma strip_tags_fixed t : tag_free t → strip_tags_go None t = t.
Proof.
  forget_world. induction t as [|c t IH]; intros Ht; [done|]. simpl.
  destruct (c =? 60)%N eqn:Hc.
  - apply N.eqb_eq in Hc as ->.
    destruct (Ht [] t eq_refl) as [[r ->]|Hno].
    + specialize (IH (tag_free_tail _ _ Ht)). simpl in IH |- *. congruence.
    + by rewrite strip_tags_go_open.
  - f_equal. apply IH. by eapply tag_free_tail.
Qed.

(** X1. Removing the tags leaves no tag behind: in the result no [<] is
    followed by one or more characters other than [>] and then a [>], so
    removing the tags once more changes nothing; and a text without [<] is
    returned as it is. *)
Theorem strip_tags_complete (s : pystr) :
  tag_free (strip_tags s)
  ∧ strip_tags (strip_tags s) = strip_tags s
  ∧ (60%N ∉ s → strip_tags s = s).
Proof.
  forget_world. unfold strip_tags.
  pose proof (proj1 (strip_tags_go_tag_free s)) as Hfree. split_and!.
  - done.
  - by apply strip_tags_fixed.
  - intros Hs. apply strip_tags_fixed. intros pre rest ->. exfalso. apply Hs.
    apply elem_of_app. right. by left.
Qed.


Lemma collapse_ws_single_spaced in_run s :
  single_spaced in_run (collapse_ws in_run s) = true.
Proof.
  forget_world. revert in_run. induction s as [|c s IH]; intros in_run; [done|].
  simpl. destruct (is_space c) eqn:Hc.
  - destruct in_run; [apply IH|]. simpl. by rewrite IH.
  - simpl. by rewrite Hc, IH.
Qed.

Lemma single_spaced_elem prev t c :
  single_spaced prev t = true → c ∈ t → is_space c = true → c = 32%N.
Proof.
  forget_world. revert prev. induction t as [|x t IH]; intros prev Ht Hin Hc.
  - by apply elem_of_nil in Hin.
  - simpl in Ht. apply elem_of_cons in Hin as [->|Hin].
    + rewrite Hc in Ht. apply andb_prop in Ht as [[?%N.eqb_eq _]%andb_prop _]. done.
    + destruct (is_space x).
      * apply andb_prop in Ht as [_ Ht]. by eapply IH.
      * by eapply IH.
Qed.

Lemma single_spaced_adjacent prev pre a b post :
  single_spaced prev (pre ++ a :: b :: post) = true →
  is_space a = true → is_space b = false.
Proof.
  forget_world. revert prev. induction pre as [|x pre IH]; intros prev Ht Ha.
  - simpl in Ht. rewrite Ha in Ht. apply andb_prop in Ht as [_ Ht].
    destruct (is_space b); [|done]. by rewrite andb_false_r in Ht.
  - simpl in Ht. destruct (is_space x).
    + apply andb_prop in Ht as [_ Ht]. by eapply IH.
    + by eapply IH.
Qed.

Lemma lstrip_suffix s : ∃ pre, s = pre ++ lstrip s.
Proof.
  forget_world. induction s as [|c s [pre IH]]; [by exists []|]. simpl.
  destruct (is_space c); [|by exists []].
  exists (c :: pre). simpl. by f_equal.
Qed.

Lemma lstrip_head s c : head (lstrip s) = Some c → is_space c = false.
Proof.
  forget_world. induction s as [|x s IH]; [done|]. simpl.
  destruct (is_space x) eqn:Hx; [done|]. by intros [= <-].
Qed.

Lemma lstrip_keeps s c r : is_space c = false → lstrip (s ++ c :: r) = lstrip s ++ c :: r.
Proof.
  forget_world. intros Hc. induction s as [|x s IH]; simpl.
  - by rewrite Hc.
  - by destruct (is_space x).
Qed.

Lemma str_strip_infix s : ∃ pre post, s = pre ++ str_strip s ++ post.
Proof.
  forget_world. unfold str_strip.
  destruct (lstrip_suffix s) as [pre Hpre].
  destruct (lstrip_suffix (reverse (lstrip s))) as [post Hpost].
  exists pre, (reverse post). rewrite <- reverse_app, <- Hpost, reverse_involutive.
  done.
Qed.

Lemma str_strip_ends s c :
  (head (str_strip s) = Some c → is_space c = false)
  ∧ (last (str_strip s) = Some c → is_space c = false).
Proof.
  forget_world. unfold str_strip. split.
  - destruct (lstrip s) as [|x t] eqn:Ht; [done|].
    assert (is_space x = false) as Hx by (apply (lstrip_head s); by rewrite Ht).
    rewrite reverse_cons, lstrip_keeps, reverse_app by done. simpl.
    by intros [= <-].
  - rewrite last_reverse. apply lstrip_head.
Qed.

Lemma clean_html_single_spaced (text : pystr) :
  (∀ c, c ∈ _clean_html text → is_space c = true → c = 32%N)
  ∧ (∀ pre a b post, _clean_html text = pre ++ a :: b :: post →
       is_space a = true → is_space b = false)
  ∧ (∀ c, head (_clean_html text) = Some c → is_space c = false)
  ∧ (∀ c, last (_clean_html text) = Some c → is_space c = false).
Proof.
  unfold _clean_html.
  pose proof (collapse_ws_single_spaced false (strip_tags (html_unescape text))) as Hw.
  destruct (str_strip_infix (collapse_ws false (strip_tags (html_unescape text))))
    as (x & y & Hxy).
  rewrite Hxy in Hw. split_and!.
  - intros c Hc. apply (single_spaced_elem _ _ _ Hw).
    apply elem_of_app. right. apply elem_of_app. by left.
  - intros pre a b post Heq. rewrite Heq in Hw.
    rewrite <- !app_assoc, app_assoc in Hw. simpl in Hw.
    by apply (single_spaced_adjacent _ _ _ _ _ Hw).
  - intros c. apply str_strip_ends.
  - intros c. apply str_strip_ends.
Qed.

(** X2. The text [_clean_html] returns has no white space but single
    spaces, none of them at its start or at its end. *)
Theorem clean_html_whitespace (text : pystr) :
  (∀ c, c ∈ _clean_html text → is_space c = true → c = 32%N)
  ∧ (∀ pre a b post, _clean_html text = pre ++ a :: b :: post →
       is_space a = true → is_space b = false)
  ∧ (∀ c, head (_clean_html text) = Some c → is_space c = false)
  ∧ (∀ c, last (_clean_html text) = Some c → is_space c = false).
Proof. apply clean_html_single_spaced. Qed.


(** ** What a fetch returns *)

(** X3. Every item [fetch_rss] returns has a summary of at most 500
    characters in which every white space is a single space and which does
    not start with white space. *)
Theorem fetch_rss_summaries (url source_name : pystr) (st : St) :
  ∃ items st',
    fetch_rss url source_name st = (Ok items, st')
    ∧ Forall (λ it,
        length (summary it) ≤ 500
        ∧ (∀ c, c ∈ summary it → is_space c = true → c = 32%N)
        ∧ (∀ pre a b post, summary it = pre ++ a :: b :: post →
             is_space a = true → is_space b = false)
        ∧ (∀ c, head (summary it) = Some c → is_space c = false)) items.
Proof.
  assert (∀ text,
    let t := take 500 (_clean_html text) in
    length t ≤ 500
    ∧ (∀ c, c ∈ t → is_space c = true → c = 32%N)
    ∧ (∀ pre a b post, t = pre ++ a :: b :: post →
         is_space a = true → is_space b = false)
    ∧ (∀ c, head t = Some c → is_space c = false)) as Hclean.
  { intros text t. subst t.
    destruct (clean_html_single_spaced text) as (Hsp & Hadj & Hhd & _).
    split_and!.
    - rewrite length_take. lia.
    - intros c Hc. apply Hsp.
      eapply elem_of_sublist; [exact Hc|apply sublist_take].
    - intros pre a b post Heq.
      apply (Hadj pre a b (post ++ drop 500 (_clean_html text))).
      rewrite <- (take_drop 500 (_clean_html text)) at 1. rewrite Heq.
      by rewrite <- app_assoc.
    - intros c Hc. apply Hhd. destruct (_clean_html text); done. }
  rewrite fetch_rss_spec. destruct (feedparser_parse url) as [entries|e].
  - eexists _, _. split; [done|]. apply Forall_forall. intros it Hit.
    apply elem_of_lookup_imap in Hit as (i & e & -> & _).
    unfold item_of. cbn [summary].
    destruct (entry_summary e) as [s|]; [apply Hclean|].
    destruct (entry_description e) as [s|]; [apply Hclean|].
    split_and!; [simpl; lia|by intros ? ?%elem_of_nil|by intros [|??] ????|done].
  - exists [], st. by split.
Qed.

Lemma fetched_items_length sources st :
  ∀ raw st', fetched_items sources st = (Ok raw, st') →
    length raw ≤ 20 * length sources ∧ ticks st ≤ ticks st'.
Proof.
  revert st. induction sources as [|[name url] sources IH]; intros st raw st'.
  - simpl. unfold ret. intros [= <- <-]. simpl. lia.
  - cbn [fetched_items]. unfold bind at 1.
    destruct (fetch_rss_total url name st) as (items & n & -> & Hlen & _).
    unfold bind at 1.
    destruct (fetched_items sources (advance st n)) as [[more|e] st1] eqn:Hm; [|done].
    unfold ret. intros [= <- <-]. apply IH in Hm as [Hm Ht].
    rewrite length_app. simpl in *. lia.
Qed.

(** X4. The list [fetch_all] returns is in non-increasing order of
    [published], holds no two items with the same fingerprint and at most
    180 items, and the clock was read at least once on the way. *)
Theorem fetch_all_corpus_shape (hours : Z) (st : St) :
  match fetch_all hours st with
  | (Ok corpus, st') =>
      StronglySorted (λ a b, (published b ≤ published a)%Z) corpus
      ∧ NoDup (id <$> corpus)
      ∧ length corpus ≤ 180
      ∧ ticks st < ticks st'
  | (Raised _, _) => True
  end.
Proof.
  destruct (fetched_items_spec RSS_SOURCES (advance st 1)) as (raw & k & Hraw & _).
  destruct (sub_hours (clock (ticks st)) hours) as [cutoff|e] eqn:Hcut.
  - rewrite (fetch_all_spec _ _ _ _ _ Hcut Hraw). split_and!.
    + apply list_sort_reverse_sorted.
    + unfold rank. rewrite list_sort_reverse_perm. apply dedup_loop_NoDup.
    + apply fetched_items_length in Hraw as [Hlen _].
      unfold rank. rewrite list_sort_reverse_perm.
      etransitivity; [apply sublist_length, dedup_loop_sublist|].
      etransitivity; [apply sublist_length, List_filter_sublist|].
      etransitivity; [exact Hlen|]. by vm_compute.
    + simpl. lia.
  - unfold fetch_all. unfold bind at 1. rewrite datetime_now_spec.
    unfold bind at 1, lift at 1. by rewrite Hcut.
Qed.

(** X5. [fetch_all] raises exactly when the window cannot be computed,
    and then raises [OverflowError] after one reading of the clock and
    before any source is read: with the text of [timedelta] when the whole
    days of the window do not fit a C [int] or exceed 999999999 in
    magnitude, and with the text of the subtraction when the cutoff, the
    reading of the clock less the window, is not a date [datetime] can
    hold. In every other case it returns a list: no failure of a source
    makes it raise. *)
Theorem fetch_all_raises_on_window_only (hours : Z) (st : St) :
  let days := (hours / 24)%Z in
  let cutoff := (clock (ticks st) - hours * 3600 * US_PER_SECOND)%Z in
  if decide (days < - 2147483648 ∨ 2147483647 < days)%Z then
    fetch_all hours st
    = (Raised (Raise OverflowError (u "Python int too large to convert to C int")),
       advance st 1)
  else if decide (days < - 999999999 ∨ 999999999 < days)%Z then
    fetch_all hours st
    = (Raised (Raise OverflowError
                 (u "days=" ++ str_of_Z days ++ u "; must have magnitude <= 999999999")),
       advance st 1)
  else if in_range cutoff then
    ∃ corpus st', fetch_all hours st = (Ok corpus, st')
  else
    fetch_all hours st
    = (Raised (Raise OverflowError (u "date value out of range")), advance st 1).
Proof.
  intros days cutoff.
  destruct (fetched_items_spec RSS_SOURCES (advance st 1)) as (raw & k & Hraw & _).
  assert (∀ e, sub_hours (clock (ticks st)) hours = Raised e →
            fetch_all hours st = (Raised e, advance st 1)) as Hraise.
  { intros e He. unfold fetch_all. unfold bind at 1. rewrite datetime_now_spec.
    unfold bind at 1, lift at 1. by rewrite He. }
  destruct (decide (days < - 2147483648 ∨ 2147483647 < days)%Z) as [Hint|Hint].
  { apply Hraise. unfold sub_hours, timedelta_hours. fold days.
    assert ((- 2147483648 <=? days)%Z && (days <=? 2147483647)%Z = false) as ->; [|done].
    apply andb_false_iff. rewrite Z.leb_gt, Z.leb_gt. lia. }
  assert ((- 2147483648 <=? days)%Z && (days <=? 2147483647)%Z = true) as Hfit.
  { apply andb_true_iff. rewrite !Z.leb_le. lia. }
  destruct (decide (days < - 999999999 ∨ 999999999 < days)%Z) as [Hmag|Hmag].
  { apply Hraise. unfold sub_hours, timedelta_hours. fold days. rewrite Hfit.
    assert ((- 999999999 <=? days)%Z && (days <=? 999999999)%Z = false) as ->; [|done].
    apply andb_false_iff. rewrite Z.leb_gt, Z.leb_gt. lia. }
  assert ((- 999999999 <=? days)%Z && (days <=? 999999999)%Z = true) as Hsmall.
  { apply andb_true_iff. rewrite !Z.leb_le. lia. }
  assert (sub_hours (clock (ticks st)) hours
          = if in_range cutoff then Ok cutoff
            else Raised (Raise OverflowError (u "date value out of range"))) as Hsub.
  { unfold sub_hours, timedelta_hours. fold days. rewrite Hfit, Hsmall. simpl.
    unfold sub_timedelta. by fold cutoff. }
  destruct (in_range cutoff) eqn:Hr.
  - eexists _, _. by apply (fetch_all_spec hours st cutoff raw _).
  - by apply Hraise.
Qed.


(** ** Grouping and formatting *)

Lemma group_add_keys x g :
  (group_add x g).*1 = g.*1 ++ (if decide (source x ∈ g.*1) then [] else [source x]).
Proof.
  forget_world. induction g as [|[s l] g IH].
  - rewrite decide_False by apply not_elem_of_nil. done.
  - cbn [group_add]. destruct (decide (s = source x)) as [->|Hne].
    + rewrite !fmap_cons. cbn [fst].
      rewrite decide_True by by left. by rewrite app_nil_r.
    + rewrite !fmap_cons, IH. cbn [fst]. rewrite <- app_comm_cons.
      f_equal. f_equal. apply decide_ext.
      rewrite elem_of_cons. naive_solver.
Qed.

Lemma group_add_groups x keys (F : pystr → list NewsItem) :
  NoDup keys →
  group_add x ((λ s, (s, F s)) <$> keys)
  = ((λ s, (s, if decide (s = source x) then F s ++ [x] else F s)) <$> keys)
    ++ (if decide (source x ∈ keys) then [] else [(source x, [x])]).
Proof.
  forget_world. induction 1 as [|k keys Hk Hnd IH].
  - rewrite decide_False by apply not_elem_of_nil. done.
  - rewrite !fmap_cons. cbn [group_add].
    destruct (decide (k = source x)) as [->|Hne].
    + rewrite (decide_True (P:=source x ∈ source x :: keys)) by by left.
      rewrite app_nil_r. f_equal.
      apply list_fmap_ext. intros i s Hs.
      rewrite decide_False; [done|]. intros ->. apply Hk.
      by eapply list_elem_of_lookup_2.
    + rewrite IH, <- app_comm_cons. f_equal. f_equal. apply decide_ext.
      rewrite elem_of_cons. naive_solver.
Qed.

Lemma group_add_concat x g : concat (group_add x g).*2 ≡ₚ concat g.*2 ++ [x].
Proof.
  forget_world. induction g as [|[s l] g IH]; simpl; [done|].
  destruct (decide (s = source x)); simpl.
  - rewrite <- !app_assoc. f_equiv. apply Permutation_app_comm.
  - by rewrite IH, app_assoc.
Qed.

Lemma group_by_source_snoc items x :
  group_by_source (items ++ [x]) = group_add x (group_by_source items).
Proof. unfold group_by_source. by rewrite foldl_app. Qed.

(** X6. [format_as_blog_post] groups the items by source without losing
    or repeating any: the sources are pairwise distinct and stand in the
    order of their first item, each group holds exactly the items of its
    source in the order of the list, no group is empty, and the groups
    together are a rearrangement of the list. *)
Theorem group_by_source_partition (items : list NewsItem) :
  NoDup (group_by_source items).*1
  ∧ group_by_source items
    = (λ s, (s, filter (λ it, source it = s) items)) <$> (group_by_source items).*1
  ∧ (∀ s, s ∈ (group_by_source items).*1 ↔ s ∈ source <$> items)
  ∧ (∀ x, (group_by_source (items ++ [x])).*1
          = (group_by_source items).*1
            ++ (if decide (source x ∈ (group_by_source items).*1)
                then [] else [source x]))
  ∧ Forall (λ g, g.2 ≠ []) (group_by_source items)
  ∧ concat (group_by_source items).*2 ≡ₚ items.
Proof.
  forget_world.
  assert (NoDup (group_by_source items).*1
          ∧ group_by_source items
            = (λ s, (s, filter (λ it, source it = s) items))
                <$> (group_by_source items).*1
          ∧ (∀ s, s ∈ (group_by_source items).*1 ↔ s ∈ source <$> items)
          ∧ concat (group_by_source items).*2 ≡ₚ items) as (Hnd & Hg & Hk & Hp).
  { induction items as [|x items IH] using rev_ind.
    - split_and!; [constructor|done| |done].
      intros s. split; by intros ?%elem_of_nil.
    - destruct IH as (Hnd & Hg & Hk & Hp). rewrite group_by_source_snoc.
      assert (NoDup (group_add x (group_by_source items)).*1) as Hnd'.
      { rewrite group_add_keys. case_decide; [by rewrite app_nil_r|].
        apply NoDup_app. split_and!; [done| |apply NoDup_singleton].
        intros s Hs ->%list_elem_of_singleton. done. }
      split_and!.
      + done.
      + rewrite Hg at 1. rewrite (group_add_groups _ _ _ Hnd).
        rewrite group_add_keys, fmap_app. f_equal.
        * apply list_fmap_ext. intros i s _. f_equal.
          rewrite filter_app, filter_cons, filter_nil.
          destruct (decide (s = source x)) as [->|Hne].
          -- by rewrite decide_True.
          -- rewrite decide_False by congruence. by rewrite app_nil_r.
        * case_decide as Hin; [done|]. simpl. do 2 f_equal.
          rewrite filter_app, filter_cons, filter_nil, decide_True by done.
          rewrite filter_none; [done|]. apply Forall_forall. intros it Hit Heq.
          apply Hin, Hk. rewrite <- Heq. by apply list_elem_of_fmap_2.
      + intros s. rewrite group_add_keys, fmap_app, !elem_of_app, Hk.
        change (source <$> [x]) with [source x].
        rewrite list_elem_of_singleton. case_decide as Hin.
        * apply Hk in Hin. split.
          -- intros [?|?%elem_of_nil]; [by left|done].
          -- intros [?|Heq]; [by left|]. left. by rewrite Heq.
        * by rewrite list_elem_of_singleton.
      + by rewrite group_add_concat, Hp. }
  split_and!; [done|done|done| |  |done].
  - intros x. by rewrite group_by_source_snoc, group_add_keys.
  - rewrite Hg. apply Forall_fmap, Forall_forall. intros s Hs. simpl.
    apply Hk, list_elem_of_fmap in Hs as (it & -> & Hit).
    intros Hnil. apply (filter_nil_not_elem_of _ _ it Hnil); done.
Qed.

Lemma py_slice_prefix {A} (l : list A) (m : Z) :
  (0 ≤ m)%Z → py_slice l 0 m = take (Z.to_nat m) l.
Proof.
  intros Hm. unfold py_slice, clamp_index.
  change (0 <? 0)%Z with false. cbv iota.
  rewrite (proj2 (Z.ltb_ge m 0)) by lia. rewrite (Z.min_l 0) by lia.
  rewrite Z.sub_0_r. change (Z.to_nat 0) with 0. rewrite drop_0.
  destruct (decide (m ≤ Z.of_nat (length l))%Z).
  - by rewrite Z.min_l by lia.
  - rewrite Z.min_r by lia. rewrite Nat2Z.id.
    by rewrite !take_ge by lia.
Qed.

(** X7. With a [max_items] that is not negative the document is made from
    the first [max_items] items alone: the items after them change nothing,
    and the number of items shown is the smaller of [max_items] and the
    length of the list. *)
Theorem format_as_blog_post_first_items (items : list NewsItem) (max_items : Z)
    (date : option datetime) (st : St) :
  (0 ≤ max_items)%Z →
  format_as_blog_post items max_items date st
  = format_as_blog_post (take (Z.to_nat max_items) items) max_items date st
  ∧ length (py_slice items 0 max_items) = length items `min` Z.to_nat max_items.
Proof.
  intros Hm. split.
  - unfold format_as_blog_post.
    rewrite !(py_slice_prefix (take _ _)), !(py_slice_prefix items) by done.
    by rewrite take_take, Nat.min_id.
  - rewrite py_slice_prefix, length_take by done. lia.
Qed.


(** ** The site *)

Lemma sent_0 st : sent st 0 = st.
Proof. destruct st. unfold sent. simpl. by rewrite Nat.add_0_r. Qed.

Lemma sent_sent st m n : sent (sent st m) n = sent st (m + n).
Proof. unfold sent. simpl. by rewrite Nat.add_assoc. Qed.

Lemma requests_call_spec m path data st :
  requests_call m path data st
  = (requests_send (calls st) {| method := m; url := api_base ++ path; payload := data |},
     sent st 1).
Proof. unfold requests_call, sent. by rewrite Nat.add_1_r. Qed.

(** X8. [test_connection] never raises and sends one request; it answers
    [True] exactly when that request is answered with status 200 and a JSON
    object that has a ["name"]. *)
Theorem test_connection_answer (st : St) :
  ∃ b, test_connection st = (Ok b, sent st 1)
    ∧ (b = true ↔
       ∃ response user name,
         requests_send (calls st)
           {| method := GET; url := api_base ++ u "/users/me"; payload := VNone |}
           = Ok response
         ∧ status_code response = 200%Z
         ∧ json response = Ok (VDict user)
         ∧ dict_get (u "name") user = Some name).
Proof.
  unfold test_connection, try_except. unfold bind at 1.
  rewrite requests_call_spec.
  destruct (requests_send _ _) as [response|e] eqn:Hr.
  2:{ exists false. split; [done|]. split; [done|]. by intros (? & ? & ? & ? & _). }
  destruct (status_code response =? 200)%Z eqn:Hs.
  2:{ exists false. split; [done|]. split; [done|].
      intros (? & ? & ? & [= <-] & Hs' & _). apply Z.eqb_neq in Hs. done. }
  apply Z.eqb_eq in Hs. unfold bind, lift, ret.
  destruct (json response) as [user|e] eqn:Hj.
  2:{ exists false. split; [done|]. split; [done|].
      intros (? & ? & ? & [= <-] & _ & Hj' & _). congruence. }
  destruct (subscript user (u "name")) as [name|e] eqn:Hn.
  - exists true. split; [done|]. split; [|done]. intros _.
    destruct user as [| | | | |d]; try done. unfold subscript in Hn.
    destruct (dict_get (u "name") d) as [x|] eqn:Hd; [|done].
    by exists response, d, x.
  - exists false. split; [done|]. split; [done|].
    intros (r & d & x & [= <-] & _ & Hj' & Hd). rewrite Hj in Hj'.
    injection Hj' as ->. unfold subscript in Hn. by rewrite Hd in Hn.
Qed.

Lemma find_by_name_cons name term terms :
  find_by_name name (term :: terms) =
  match subscript term (u "name") with
  | Raised e => Raised e
  | Ok (VStr s) =>
      if decide (str_lower s = str_lower name) then Ok term
      else find_by_name name terms
  | Ok _ => Raised (Raise AttributeError (u "object has no attribute 'lower'"))
  end.
Proof. done. Qed.

Lemma term_name_subscript term s :
  term_name term = Some s → subscript term (u "name") = Ok (VStr s).
Proof.
  destruct term as [| | | | |d]; try done. simpl.
  destruct (dict_get (u "name") d) as [[| | |x| |]|]; try done. by intros [= ->].
Qed.

Lemma find_by_name_scan (name : pystr) (pre post : list pyval) (term : pyval) :
  Forall (λ t, ∃ s, term_name t = Some s ∧ str_lower s ≠ str_lower name) pre →
  (∀ s, term_name term = Some s → str_lower s = str_lower name →
     find_by_name name (pre ++ term :: post) = Ok term)
  ∧ find_by_name name pre = Ok VNone.
Proof.
  intros Hpre. induction Hpre as [|t pre (s & Hs & Hne) _ [IH1 IH2]].
  - split; [|done]. intros s Hs Heq. simpl.
    rewrite (term_name_subscript _ _ Hs). by rewrite decide_True.
  - split.
    + intros s' Hs' Heq. rewrite <- app_comm_cons, find_by_name_cons.
      rewrite (term_name_subscript _ _ Hs), decide_False by done. by eapply IH1.
    + rewrite find_by_name_cons.
      by rewrite (term_name_subscript _ _ Hs), decide_False by done.
Qed.

(** X9. Looking a term up by name is case-insensitive and takes the first
    match: over terms that are objects with a string name, the lookup
    returns the first one whose lower-cased name is the lower-cased name
    sought, whatever follows it, and [None] if there is none. *)
Theorem find_by_name_first_match (name : pystr) (pre post : list pyval) (term : pyval) :
  Forall (λ t, ∃ s, term_name t = Some s ∧ str_lower s ≠ str_lower name) pre →
  (∀ s, term_name term = Some s → str_lower s = str_lower name →
     find_by_name name (pre ++ term :: post) = Ok term)
  ∧ find_by_name name pre = Ok VNone.
Proof. apply find_by_name_scan. Qed.


Lemma get_term_by_name_effect path name st :
  ∃ o, get_term_by_name path name st = (o, sent st 1).
Proof.
  unfold get_term_by_name. unfold bind at 1. rewrite requests_call_spec.
  destruct (requests_send _ _) as [response|e]; [|by eexists].
  destruct (status_code response =? 200)%Z; [|by eexists].
  unfold bind, lift. destruct (json response) as [v|e]; [|by eexists].
  destruct (iterate v) as [l|e]; by eexists.
Qed.

Lemma create_tag_effect name slug st :
  ∃ o n, create_tag name slug st = (o, sent st n) ∧ 1 ≤ n ≤ 2.
Proof.
  unfold create_tag. unfold bind at 1. rewrite requests_call_spec.
  destruct (requests_send _ _) as [response|e]; [|exists (Raised e), 1; split; [done|lia]].
  destruct (status_code response =? 201)%Z.
  { unfold lift. exists (json response), 1. split; [done|lia]. }
  destruct (_ && _).
  - unfold get_tag_by_name.
    destruct (get_term_by_name_effect (u "/tags") name (sent st 1)) as [o ->].
    exists o, 2. rewrite sent_sent. split; [done|lia].
  - unfold raise. eexists _, 1. split; [done|lia].
Qed.

Lemma create_category_effect name slug description st :
  ∃ o n, create_category name slug description st = (o, sent st n) ∧ 1 ≤ n ≤ 2.
Proof.
  unfold create_category. unfold bind at 1. rewrite requests_call_spec.
  destruct (requests_send _ _) as [response|e]; [|exists (Raised e), 1; split; [done|lia]].
  destruct (status_code response =? 201)%Z.
  { unfold lift. exists (json response), 1. split; [done|lia]. }
  destruct (_ && _).
  - unfold get_category_by_name.
    destruct (get_term_by_name_effect (u "/categories") name (sent st 1)) as [o ->].
    exists o, 2. rewrite sent_sent. split; [done|lia].
  - unfold raise. eexists _, 1. split; [done|lia].
Qed.

Lemma setup_tags_effect names st :
  ∃ o tids n,
    setup_tags names st
    = (o, {| ticks := ticks st; calls := calls st + n;
             ai_category_id := ai_category_id st;
             tag_ids := tag_ids st ++ tids |})
    ∧ n ≤ 2 * length names
    ∧ match o with
      | Ok _ => length tids = length names ∧ length names ≤ n
      | Raised _ => length tids < length names ∧ 1 ≤ n
      end.
Proof.
  revert st. induction names as [|name names IH]; intros st.
  - exists (Ok tt), [], 0. simpl. unfold ret. destruct st; simpl.
    rewrite Nat.add_0_r, app_nil_r. split_and!; [done|lia|done|lia].
  - cbn [setup_tags]. unfold bind at 1.
    destruct (create_tag_effect name VNone st) as (o & n1 & -> & Hn1).
    destruct o as [tag|e].
    2:{ exists (Raised e), [], n1. rewrite app_nil_r. simpl.
        split_and!; [done|lia|lia|lia]. }
    unfold bind at 1, lift at 1.
    destruct (subscript tag (u "id")) as [tid|e].
    2:{ exists (Raised e), [], n1. rewrite app_nil_r. simpl.
        split_and!; [done|lia|lia|lia]. }
    unfold bind at 1, append_tag_id at 1.
    destruct (IH {| ticks := ticks (sent st n1); calls := calls (sent st n1);
                    ai_category_id := ai_category_id (sent st n1);
                    tag_ids := tag_ids (sent st n1) ++ [tid] |})
      as (o & tids & n & -> & Hn & Ho).
    exists o, (tid :: tids), (n1 + n). simpl.
    rewrite <- app_assoc, Nat.add_assoc. simpl.
    split_and!; [done|lia|]. destruct o; simpl; lia.
Qed.

(** X10. [setup_taxonomy] reads no clock, sends between 1 and 12 requests
    and only ever appends to the tag ids it finds: when it succeeds it has
    sent at least 6 requests and appended exactly 5 ids (so a second call
    on the same object leaves 10), when it raises fewer than 5. *)
Theorem setup_taxonomy_effect (st : St) :
  ∃ o st' tids n,
    setup_taxonomy st = (o, st')
    ∧ ticks st' = ticks st
    ∧ calls st' = calls st + n
    ∧ tag_ids st' = tag_ids st ++ tids
    ∧ 1 ≤ n ≤ 12
    ∧ match o with
      | Ok _ => length tids = 5 ∧ 6 ≤ n
      | Raised _ => length tids < 5
      end.
Proof.
  unfold setup_taxonomy. unfold bind at 1.
  destruct (create_category_effect (u "AI Agent") (VStr (u "ai-agent"))
              (VStr (u "AI Agent 相关资讯")) st) as (o & n1 & -> & Hn1).
  destruct o as [category|e].
  2:{ exists (Raised e), (sent st n1), [], n1. rewrite app_nil_r. simpl.
      split_and!; [done..|lia|lia|lia]. }
  unfold bind at 1, lift at 1.
  destruct (subscript category (u "id")) as [cid|e].
  2:{ exists (Raised e), (sent st n1), [], n1. rewrite app_nil_r. simpl.
      split_and!; [done..|lia|lia|lia]. }
  unfold bind at 1, set_ai_category_id at 1.
  destruct (setup_tags_effect tag_names
              {| ticks := ticks (sent st n1); calls := calls (sent st n1);
                 ai_category_id := cid; tag_ids := tag_ids (sent st n1) |})
    as (o & tids & n & -> & Hn & Ho).
  eexists o, _, tids, (n1 + n). simpl. rewrite Nat.add_assoc.
  change (length tag_names) with 5 in *.
  split_and!; [done..|lia|lia|]. destruct o; lia.
Qed.


(** X11. When the site answers that the category exists already and the
    lookup that follows does not find it (its answer is not 200, or lists
    no term of that name), [setup_taxonomy] raises [TypeError] after these
    two requests: the category that was not found is [None] and has no
    ["id"]. *)
Theorem setup_taxonomy_lost_category (st : St) (r1 r2 : Response) :
  (∀ req, requests_send (calls st) req = Ok r1) →
  status_code r1 = 400%Z →
  str_contains (u "term_exists") (text r1) = true →
  (∀ req, requests_send (S (calls st)) req = Ok r2) →
  (status_code r2 ≠ 200%Z
   ∨ ∃ terms, json r2 = Ok (VList terms)
       ∧ Forall (λ t, ∃ s, term_name t = Some s
                        ∧ str_lower s ≠ str_lower (u "AI Agent")) terms) →
  setup_taxonomy st
  = (Raised (Raise TypeError (u "'NoneType' object is not subscriptable")),
     sent st 2).
Proof.
  intros H1 Hs1 Ht1 H2 Hr2.
  unfold setup_taxonomy, create_category. unfold bind at 1 2.
  rewrite requests_call_spec, H1, Hs1, Ht1.
  change (400 =? 201)%Z with false. change (400 =? 400)%Z with true.
  cbv iota. cbn [andb].
  unfold get_category_by_name, get_term_by_name. unfold bind at 1.
  rewrite requests_call_spec. change (calls (sent st 1)) with (calls st + 1).
  rewrite Nat.add_1_r, H2, sent_sent.
  destruct Hr2 as [Hne|(terms & Hj & Hterms)].
  - rewrite (proj2 (Z.eqb_neq _ _) Hne). done.
  - destruct (status_code r2 =? 200)%Z; [|done].
    unfold bind at 1, lift at 1. rewrite Hj. unfold bind at 1, lift at 1.
    cbn [iterate]. unfold lift at 1.
    pose proof (find_by_name_scan (u "AI Agent") terms [] VNone Hterms) as [_ ->].
    done.
Qed.


Lemma create_post_effect title content status categories tags excerpt image slug st :
  ∃ o, create_post title content status categories tags excerpt image slug st
       = (o, sent st 1).
Proof.
  unfold create_post. unfold bind at 1. rewrite requests_call_spec.
  destruct (requests_send _ _) as [response|e]; [|by eexists].
  destruct (status_code response =? 201)%Z; [|by eexists].
  unfold bind, lift, ret. destruct (json response) as [post|e]; [|by eexists].
  destruct (subscript post (u "link")); by eexists.
Qed.

(** X12. [create_post] sends one request whatever comes of it. Its body
    always has the title, the content and the status, and has each of the
    five optional fields exactly when the argument is truthy (the featured
    image under ["featured_media"]): an empty list of tags or an empty
    excerpt is not sent. An answer other than 201 raises an exception that
    names the status and the text of the answer; an answer 201 returns the
    object received if it has a ["link"] and raises [KeyError] if it has
    none. *)
Theorem create_post_request (title content status categories tags excerpt
    featured_image_id slug : pyval) (st : St) :
  ∃ data o,
    create_post title content status categories tags excerpt featured_image_id slug st
    = (o, sent st 1)
    ∧ dict_get (u "title") data = Some title
    ∧ dict_get (u "content") data = Some content
    ∧ dict_get (u "status") data = Some status
    ∧ dict_get (u "categories") data = (if truthy categories then Some categories else None)
    ∧ dict_get (u "tags") data = (if truthy tags then Some tags else None)
    ∧ dict_get (u "excerpt") data = (if truthy excerpt then Some excerpt else None)
    ∧ dict_get (u "featured_media") data
      = (if truthy featured_image_id then Some featured_image_id else None)
    ∧ dict_get (u "slug") data = (if truthy slug then Some slug else None)
    ∧ (∀ e, requests_send (calls st)
              {| method := POST; url := api_base ++ u "/posts"; payload := VDict data |}
            = Raised e → o = Raised e)
    ∧ (∀ r, requests_send (calls st)
              {| method := POST; url := api_base ++ u "/posts"; payload := VDict data |}
            = Ok r →
         (status_code r ≠ 201%Z →
          o = Raised (Raise Exception
                        (u "发布失败: " ++ str_of_Z (status_code r) ++ u " - " ++ text r)))
         ∧ (status_code r = 201%Z → ∀ d, json r = Ok (VDict d) →
            o = if dict_has (u "link") d then Ok (VDict d)
                else Raised (Raise KeyError (u "'" ++ u "link" ++ u "'")))).
Proof.
  exists ([(u "title", title); (u "content", content); (u "status", status)]
          ++ optional_field (u "categories") categories
          ++ optional_field (u "tags") tags
          ++ optional_field (u "excerpt") excerpt
          ++ optional_field (u "featured_media") featured_image_id
          ++ optional_field (u "slug") slug).
  destruct (create_post_effect title content status categories tags excerpt
              featured_image_id slug st) as [o Ho].
  exists o. split; [exact Ho|].
  unfold create_post in Ho. unfold bind at 1 in Ho.
  rewrite requests_call_spec in Ho.
  split_and!.
  1-8: unfold optional_field;
       destruct (truthy categories), (truthy tags), (truthy excerpt),
         (truthy featured_image_id), (truthy slug); vm_compute; reflexivity.
  - intros e He. rewrite He in Ho. by injection Ho as <-.
  - intros r Hr. rewrite Hr in Ho. split.
    + intros Hne. rewrite (proj2 (Z.eqb_neq _ _) Hne) in Ho.
      unfold raise in Ho. by injection Ho as <-.
    + intros H201 d Hj. rewrite H201 in Ho.
      change (201 =? 201)%Z with true in Ho. cbv iota in Ho.
      unfold bind, lift, ret in Ho. rewrite Hj in Ho.
      unfold subscript, dict_has in *.
      destruct (dict_get (u "link") d) eqn:Hd.
      * rewrite bool_decide_eq_true_2 by by eexists. by injection Ho as <-.
      * rewrite bool_decide_eq_false_2 by by intros [? ?]. by injection Ho as <-.
Qed.


(** ** The two ways of publishing *)

Lemma test_connection_spec st :
  test_connection st = (Ok (reachable (calls st)), sent st 1).
Proof.
  unfold test_connection, try_except, reachable. unfold bind at 1.
  rewrite requests_call_spec.
  destruct (requests_send _ _) as [response|e]; [|done].
  destruct (status_code response =? 200)%Z; [|done].
  unfold bind, lift, ret. destruct (json response) as [user|e]; [|done].
  destruct user as [| | | | |d]; try done. unfold subscript, dict_has.
  destruct (dict_get (u "name") d).
  - by rewrite bool_decide_eq_true_2 by by eexists.
  - by rewrite bool_decide_eq_false_2 by by intros [? ?].
Qed.

(** X13. When the site does not answer the probe as expected, neither way
    of publishing goes any further: [publish_multiple] returns the empty
    list and [publish_daily_news] returns [None], after that one request,
    with no source read and the category and the tags untouched. *)
Theorem unreachable_site_aborts (count hours_per_batch items_per_post hours
    max_items : Z) (status : pystr) (st : St) :
  (test_connection st).1 = Ok false →
  publish_multiple count hours_per_batch items_per_post st = (Ok [], sent st 1)
  ∧ publish_daily_news hours max_items status st
    = (Ok VNone, sent (advance st 1) 1).
Proof.
  rewrite test_connection_spec. intros [= Hr]. split.
  - unfold publish_multiple. unfold bind at 1.
    by rewrite test_connection_spec, Hr.
  - unfold publish_daily_news. unfold bind at 1. rewrite datetime_now_spec.
    unfold bind at 1. rewrite test_connection_spec.
    change (calls (advance st 1)) with (calls st). by rewrite Hr.
Qed.

Lemma effective_count_total all_items count items_per_post :
  ∃ m, effective_count all_items count items_per_post = Ok m
    ∧ Z.to_nat m ≤ Z.to_nat count.
Proof.
  forget_world. unfold effective_count.
  destruct (_ <? _)%Z eqn:Hlt; [|by eexists].
  apply Z.ltb_lt in Hlt.
  destruct (items_per_post =? 0)%Z eqn:Hz.
  { apply Z.eqb_eq in Hz. subst. lia. }
  apply Z.eqb_neq in Hz. eexists. split; [done|].
  destruct (decide (0 < items_per_post)%Z).
  - assert (Z.of_nat (length all_items) / items_per_post < count)%Z
      by (apply Z.div_lt_upper_bound; lia). lia.
  - assert (Z.of_nat (length all_items) / items_per_post ≤ 0)%Z.
    { rewrite <- (Z.div_opp_opp _ _ Hz). apply Z.div_le_upper_bound; lia. }
    lia.
Qed.


Lemma batch_plan_length remaining i all_items items_per_post :
  length (batch_plan remaining i all_items items_per_post) ≤ remaining.
Proof.
  forget_world. revert i. induction remaining as [|n IH]; intros i; [done|].
  cbn [batch_plan]. destruct (batch_slice all_items items_per_post i); simpl; [lia|].
  specialize (IH (i + 1)%Z). lia.
Qed.

Lemma publish_multiple_ok count hours_per_batch items_per_post st results st' :
  publish_multiple count hours_per_batch items_per_post st = (Ok results, st') →
  results = []
  ∨ ∃ all_items m st_c os,
      effective_count all_items count items_per_post = Ok m
      ∧ run_submissions (batch_plan (Z.to_nat m) 0 all_items items_per_post)
          items_per_post st_c = (os, st')
      ∧ results = result_of <$> os.
Proof.
  unfold publish_multiple. unfold bind at 1. rewrite test_connection_spec.
  destruct (reachable (calls st)); simpl; [|unfold ret; intros [= <- _]; by left].
  unfold bind at 1. destruct (setup_taxonomy (sent st 1)) as [[[]|e] st_b]; [|done].
  unfold bind at 1.
  destruct (fetch_all (hours_per_batch * count) st_b) as [[all_items|e] st_c]; [|done].
  unfold bind at 1, lift at 1.
  destruct (effective_count all_items count items_per_post) as [m|e] eqn:Hm; [|done].
  unfold bind at 1. rewrite publish_loop_spec.
  pose proof (run_submissions_dicts
                (batch_plan (Z.to_nat m) 0 all_items items_per_post)
                items_per_post st_c) as Hd.
  destruct (run_submissions _ items_per_post st_c) as [os st1] eqn:Hrun.
  simpl in Hd. simpl. unfold bind, lift, ret.
  rewrite (success_count_spec _ (result_of_dicts _ Hd)).
  intros [= <- <-]. right. by exists all_items, m, st_c, os.
Qed.

(** X14. The number of batches is never computed by a division by zero:
    for all integers it is a number, and not more than the number asked
    for. [publish_multiple] never returns more results than posts were
    asked for. *)
Theorem publish_multiple_count_bound :
  (∀ all_items count items_per_post,
     ∃ m, effective_count all_items count items_per_post = Ok m
       ∧ Z.to_nat m ≤ Z.to_nat count)
  ∧ (∀ count hours_per_batch items_per_post st,
       match publish_multiple count hours_per_batch items_per_post st with
       | (Ok results, _) => length results ≤ Z.to_nat count
       | (Raised _, _) => True
       end).
Proof.
  split; [apply effective_count_total|].
  intros count h k st.
  destruct (publish_multiple count h k st) as [[results|e] st'] eqn:Hrun; [|done].
  apply publish_multiple_ok in Hrun as [->|(items & m & st_c & os & Hm & Hrun & ->)].
  - simpl. lia.
  - destruct (effective_count_total items count k) as (m' & Hm' & Hle).
    rewrite Hm in Hm'. injection Hm' as <-.
    pose proof (run_submissions_length (batch_plan (Z.to_nat m) 0 items k) k st_c) as Hl.
    rewrite Hrun in Hl. simpl in Hl.
    pose proof (batch_plan_length (Z.to_nat m) 0 items k).
    rewrite length_fmap. lia.
Qed.

Lemma batch_plan_zero remaining all_items :
  batch_plan remaining 0 all_items 0 = [].
Proof.
  forget_world. destruct remaining; [done|]. cbn [batch_plan].
  assert (batch_slice all_items 0 0 = []) as ->; [|done].
  unfold batch_slice, py_slice, clamp_index. simpl.
  change (0 * 0 + 0)%Z with 0%Z. change (0 * 0)%Z with 0%Z.
  by rewrite Z.sub_diag.
Qed.

Lemma batch_plan_negative remaining all_items items_per_post :
  (items_per_post < 0)%Z →
  batch_plan (S remaining) 0 all_items items_per_post
  = match take (Z.to_nat (Z.of_nat (length all_items) + items_per_post)) all_items with
    | [] => []
    | batch_items => [(0%Z, batch_items)]
    end.
Proof.
  forget_world. intros Hk. cbn [batch_plan].
  assert (batch_slice all_items items_per_post 0
          = take (Z.to_nat (Z.of_nat (length all_items) + items_per_post)) all_items)
    as ->.
  { unfold batch_slice, py_slice, clamp_index.
    repeat match goal with
           | |- context [(?x <? 0)%Z] => destruct (Z.ltb_spec x 0); try lia
           end.
    replace (Z.to_nat (Z.min (0 * items_per_post) _)) with 0 by lia.
    rewrite drop_0. f_equal. lia. }
  destruct (take _ all_items) as [|x b]; [done|]. f_equal.
  destruct remaining; [done|]. cbn [batch_plan].
  assert (batch_slice all_items items_per_post (0 + 1) = []) as ->; [|done].
  unfold batch_slice, py_slice, clamp_index.
  repeat match goal with
         | |- context [(?x <? 0)%Z] => destruct (Z.ltb_spec x 0); try lia
         end.
  replace (Z.to_nat (_ - _)) with 0 by lia. done.
Qed.

(** X15. With a batch size of zero the loop of [publish_multiple] runs for
    no batch. With a negative batch size it runs for one batch at most, made
    of all items but the last [-items_per_post]. So [publish_multiple]
    returns no result for a batch size of zero and at most one for a
    negative one. *)
Theorem publish_multiple_batch_size_not_positive :
  (∀ remaining all_items, batch_plan remaining 0 all_items 0 = [])
  ∧ (∀ remaining all_items items_per_post,
       (items_per_post < 0)%Z →
       batch_plan (S remaining) 0 all_items items_per_post
       = match take (Z.to_nat (Z.of_nat (length all_items) + items_per_post))
                 all_items with
         | [] => []
         | batch_items => [(0%Z, batch_items)]
         end)
  ∧ (∀ count hours_per_batch items_per_post st,
       (items_per_post ≤ 0)%Z →
       match publish_multiple count hours_per_batch items_per_post st with
       | (Ok results, _) =>
           length results ≤ 1 ∧ (items_per_post = 0%Z → results = [])
       | (Raised _, _) => True
       end).
Proof.
  split_and!; [apply batch_plan_zero|apply batch_plan_negative|].
  intros count h k st Hk.
  destruct (publish_multiple count h k st) as [[results|e] st'] eqn:Hrun; [|done].
  apply publish_multiple_ok in Hrun as [->|(items & m & st_c & os & Hm & Hrun & ->)].
  { split; [simpl; lia|done]. }
  pose proof (run_submissions_length (batch_plan (Z.to_nat m) 0 items k) k st_c) as Hl.
  rewrite Hrun in Hl. simpl in Hl. rewrite length_fmap, Hl.
  destruct (decide (k = 0%Z)) as [->|Hne].
  - rewrite batch_plan_zero in *. split; [simpl; lia|]. intros _.
    destruct os; [done|]. simpl in Hl. lia.
  - split; [|done]. destruct (Z.to_nat m) as [|n]; [simpl; lia|].
    rewrite batch_plan_negative by lia. destruct (take _ items); simpl; lia.
Qed.


Lemma format_as_blog_post_undated items max_items st :
  ∃ doc, format_as_blog_post items max_items None st = (Ok doc, advance st 2).
Proof.
  unfold format_as_blog_post. cbv beta iota zeta delta [bind ret].
  rewrite !datetime_now_spec, advance_advance. by eexists.
Qed.

(** X16. Once the site is reached, the taxonomy set up and the sources
    fetched, [publish_daily_news] returns [None] without formatting or
    submitting anything if no item was fetched; otherwise it formats one
    document and its outcome is the outcome of the one call of
    [create_post] for it, under the category and the tags of the object
    and with the status asked for: the post, or the exception, which is not
    caught. *)
Theorem publish_daily_news_outcome (hours max_items : Z) (status : pystr)
    (st st_a st_b st_c : St) (items : list NewsItem) :
  test_connection (advance st 1) = (Ok true, st_a) →
  setup_taxonomy st_a = (Ok tt, st_b) →
  fetch_all hours st_b = (Ok items, st_c) →
  (items = [] → publish_daily_news hours max_items status st = (Ok VNone, st_c))
  ∧ (items ≠ [] →
     ∃ title content excerpt,
       format_as_blog_post items max_items None st_c
         = (Ok (title, content, excerpt), advance st_c 2)
       ∧ publish_daily_news hours max_items status st
         = create_post (VStr title) (VStr content) (VStr status)
             (VList [ai_category_id st_c]) (VList (tag_ids st_c)) (VStr excerpt)
             VNone VNone (advance st_c 2)
       ∧ (publish_daily_news hours max_items status st).2 = sent (advance st_c 2) 1).
Proof.
  intros Hconn Htax Hfetch.
  assert (publish_daily_news hours max_items status st
          = match items with
            | [] => (Ok VNone, st_c)
            | _ :: _ =>
                (let* doc := format_as_blog_post items max_items None in
                 let '(title, content, excerpt) := doc in
                 let* category_id := get_ai_category_id in
                 let* tags := get_tag_ids in
                 let* post :=
                   create_post (VStr title) (VStr content) (VStr status)
                     (VList [category_id]) (VList tags) (VStr excerpt) VNone VNone in
                 let* _ := lift (subscript post (u "link")) in
                 ret post) st_c
            end) as Hrun.
  { unfold publish_daily_news. unfold bind at 1. rewrite datetime_now_spec.
    unfold bind at 1. rewrite Hconn. simpl. unfold bind at 1. rewrite Htax.
    unfold bind at 1. rewrite Hfetch. by destruct items. }
  split.
  - intros ->. exact Hrun.
  - intros Hne. destruct items as [|x items]; [done|].
    destruct (format_as_blog_post_undated (x :: items) max_items st_c)
      as [[[title content] excerpt] Hdoc].
    exists title, content, excerpt. split; [done|].
    assert (publish_daily_news hours max_items status st
            = create_post (VStr title) (VStr content) (VStr status)
                (VList [ai_category_id st_c]) (VList (tag_ids st_c)) (VStr excerpt)
                VNone VNone (advance st_c 2)) as Heq.
    { rewrite Hrun. unfold bind at 1. rewrite Hdoc.
      unfold bind at 1 2, get_ai_category_id, get_tag_ids. unfold bind at 1.
      change (ai_category_id (advance st_c 2)) with (ai_category_id st_c).
      change (tag_ids (advance st_c 2)) with (tag_ids st_c).
      destruct (create_post _ _ _ _ _ _ _ _ (advance st_c 2)) as [[post|e] st1] eqn:Hp;
        [|done].
      apply create_post_ok in Hp as (d & -> & [l Hl]).
      unfold bind, lift, ret, subscript. by rewrite Hl. }
    split; [done|]. rewrite Heq.
    by destruct (create_post_effect (VStr title) (VStr content) (VStr status)
                   (VList [ai_category_id st_c]) (VList (tag_ids st_c)) (VStr excerpt)
                   VNone VNone (advance st_c 2)) as [o ->].
Qed.

Lemma find_invalid_key (post_data : list (pystr * pyval)) :
  forallb (λ kv, bool_decide (kv.1 ∈ create_post_params)) post_data = true →
  List.find (λ kv, negb (bool_decide (kv.1 ∈ create_post_params))) post_data = None.
Proof.
  forget_world. induction post_data as [|kv l IH]; [done|]. simpl.
  intros [Hk Hl]%andb_prop. rewrite Hk. simpl. by apply IH.
Qed.

Lemma create_post_kwargs_effect post_data st :
  if valid_kwargs post_data
  then (create_post_kwargs post_data st).2 = sent st 1
  else ∃ msg, create_post_kwargs post_data st = (Raised (Raise TypeError msg), st).
Proof.
  unfold valid_kwargs, create_post_kwargs, dict_has.
  destruct (forallb _ post_data) eqn:Hall; simpl.
  - rewrite (find_invalid_key _ Hall).
    destruct (dict_get (u "title") post_data) as [title|]; simpl.
    2:{ unfold raise. by eexists. }
    destruct (dict_get (u "content") post_data) as [content|]; simpl.
    2:{ unfold raise. by eexists. }
    by destruct (create_post_effect title content
                   (default (VStr (u "publish")) (dict_get (u "status") post_data))
                   (default VNone (dict_get (u "categories") post_data))
                   (default VNone (dict_get (u "tags") post_data))
                   (default VNone (dict_get (u "excerpt") post_data))
                   (default VNone (dict_get (u "featured_image_id") post_data))
                   (default VNone (dict_get (u "slug") post_data)) st) as [o ->].
  - destruct (List.find _ post_data) as [kv|] eqn:Hf.
    + unfold raise. by eexists.
    + exfalso. apply not_true_iff_false in Hall. apply Hall.
      apply forallb_forall. intros kv Hin.
      pose proof (List.find_none _ _ Hf kv Hin) as Hn.
      by apply negb_false_iff in Hn.
Qed.

Lemma run_posts_requests posts st :
  (run_posts posts st).2 = sent st (length (List.filter valid_kwargs posts)).
Proof.
  revert st. induction posts as [|p posts IH]; intros st.
  - simpl. by rewrite sent_0.
  - cbn [run_posts List.filter]. pose proof (create_post_kwargs_effect p st) as Hp.
    destruct (create_post_kwargs p st) as [o st1].
    specialize (IH st1). destruct (run_posts posts st1) as [os st2].
    simpl in *. destruct (valid_kwargs p).
    + subst. simpl. by rewrite sent_sent.
    + destruct Hp as [msg [= _ <-]]. done.
Qed.

(** X17. [batch_publish] turns away a post whose keyword arguments
    [create_post] cannot take (an unknown key, or no title or no content)
    before anything is sent: such a post gives a [TypeError] and leaves
    the state as it is. It always returns one result per post and has sent
    one request for each of the other posts. *)
Theorem batch_publish_requests (posts : list (list (pystr * pyval))) (st : St) :
  (∃ results,
     batch_publish posts st
     = (Ok results, sent st (length (List.filter valid_kwargs posts)))
     ∧ length results = length posts)
  ∧ (∀ post_data, valid_kwargs post_data = false →
       ∃ msg, create_post_kwargs post_data st = (Raised (Raise TypeError msg), st)).
Proof.
  split.
  - unfold batch_publish. unfold bind at 1. rewrite batch_publish_loop_spec.
    pose proof (run_posts_requests posts st) as Hreq.
    pose proof (run_posts_length posts st) as Hlen.
    pose proof (run_posts_dicts posts st) as Hd.
    destruct (run_posts posts st) as [os st'] eqn:Hrun. simpl in *. subst st'.
    unfold bind, lift, ret.
    rewrite (success_count_spec _ (result_of_titled_dicts posts os Hd)).
    eexists. split; [done|].
    rewrite length_zip_with. lia.
  - intros post_data Hv. pose proof (create_post_kwargs_effect post_data st) as H.
    by rewrite Hv in H.
Qed.


(** ** Relevance and the window *)

Lemma is_prefix_spec p s : is_prefix p s = true ↔ ∃ post, s = p ++ post.
Proof.
  forget_world. revert s. induction p as [|a p IH]; intros s; simpl.
  - split; [by exists s|done].
  - destruct s as [|b s]; [split; [done|by intros [? ?]]|].
    rewrite andb_true_iff, N.eqb_eq, IH. split.
    + intros [-> [post ->]]. by exists post.
    + intros [post [= -> ->]]. split; [done|by exists post].
Qed.

Lemma str_contains_spec needle hay :
  str_contains needle hay = true ↔ ∃ pre post, hay = pre ++ needle ++ post.
Proof.
  forget_world. induction hay as [|c hay IH]; simpl.
  - rewrite orb_false_r, is_prefix_spec. split.
    + intros [post ->]. by exists [], post.
    + intros ([|??] & post & Heq); [by exists post|done].
  - rewrite orb_true_iff, is_prefix_spec, IH. split.
    + intros [[post ->]|(pre & post & ->)]; [by exists [], post|].
      by exists (c :: pre), post.
    + intros ([|x pre] & post & Heq).
      * left. by exists post.
      * right. injection Heq as -> ->. by exists pre, post.
Qed.

(** X20. An item is relevant exactly when one of the keywords, lower-cased,
    stands somewhere as a run of consecutive characters in the lower-cased
    text made of the title, a space and the summary. *)
Theorem is_relevant_keyword_inside (item : NewsItem) :
  _is_relevant item = true ↔
  ∃ kw pre post,
    kw ∈ KEYWORDS
    ∧ str_lower (title item ++ u " " ++ summary item) = pre ++ str_lower kw ++ post.
Proof.
  unfold _is_relevant. rewrite existsb_exists. split.
  - intros (kw & Hin%list_elem_of_In & (pre & post & Heq)%str_contains_spec).
    by exists kw, pre, post.
  - intros (kw & pre & post & Hin & Heq). exists kw.
    split; [by apply list_elem_of_In|]. apply str_contains_spec. by exists pre, post.
Qed.

(** X21. A wider window loses no story: of two fetches from the same
    state, every fingerprint in the list of the one with the narrower
    window is in the list of the other one as well (the item that carries
    it there may be that of another source). *)
Theorem fetch_all_window_monotone (hours1 hours2 : Z) (st : St)
    (corpus1 corpus2 : list NewsItem) (st1 st2 : St) :
  (hours1 ≤ hours2)%Z →
  fetch_all hours1 st = (Ok corpus1, st1) →
  fetch_all hours2 st = (Ok corpus2, st2) →
  st1 = st2 ∧ ∀ x, x ∈ corpus1 → ∃ y, y ∈ corpus2 ∧ id y = id x.
Proof.
  intros Hh H1 H2.
  destruct (fetched_items_spec RSS_SOURCES (advance st 1)) as (raw & k & Hraw & _).
  destruct (sub_hours (clock (ticks st)) hours1) as [c1|e] eqn:Hc1.
  2:{ unfold fetch_all in H1. unfold bind at 1 in H1.
      rewrite datetime_now_spec in H1. unfold bind at 1, lift at 1 in H1.
      by rewrite Hc1 in H1. }
  destruct (sub_hours (clock (ticks st)) hours2) as [c2|e] eqn:Hc2.
  2:{ unfold fetch_all in H2. unfold bind at 1 in H2.
      rewrite datetime_now_spec in H2. unfold bind at 1, lift at 1 in H2.
      by rewrite Hc2 in H2. }
  rewrite (fetch_all_spec _ _ _ _ _ Hc1 Hraw) in H1.
  rewrite (fetch_all_spec _ _ _ _ _ Hc2 Hraw) in H2.
  injection H1 as <- <-. injection H2 as <- <-. split; [done|].
  assert (c2 ≤ c1)%Z as Hc.
  { apply sub_hours_Ok in Hc1 as [-> _]. apply sub_hours_Ok in Hc2 as [-> _].
    unfold US_PER_SECOND. nia. }
  intros x Hx. unfold rank in Hx. rewrite list_sort_reverse_perm in Hx.
  apply dedup_loop_elem in Hx as [Hx _].
  apply elem_of_List_filter in Hx as [Hx Hp].
  assert (x ∈ List.filter (passes_filters c2) raw) as Hx2.
  { apply elem_of_List_filter. split; [done|].
    unfold passes_filters, in_time_window in *.
    apply andb_prop in Hp as [Ht%Z.leb_le ->]. rewrite andb_true_r.
    apply Z.leb_le. lia. }
  destruct (dedup_loop_covers _ _ Hx2) as (y & Hy & Hid).
  exists y. split; [|done]. unfold rank. by rewrite list_sort_reverse_perm.
Qed.

End World.

(** * The address of the site ([WordPressPublisher.__init__]) *)

Fixpoint lstrip_slash (s : pystr) : pystr :=
  match s with
  | [] => []
  | c :: r => if (c =? 47)%N then lstrip_slash r else s
  end.

(** [s.rstrip("/")] *)
Definition rstrip_slash (s : pystr) : pystr := reverse (lstrip_slash (reverse s)).

(** [(site_url or os.getenv("WP_SITE_URL", "")).rstrip("/")]: [arg] is the
    argument, [env] the environment variable, [None] when absent. *)
Definition init_site_url (arg env : option pystr) : pystr :=
  rstrip_slash
    match arg with
    | Some (c :: s) => c :: s
    | _ => default [] env
    end.

Lemma lstrip_slash_spec s :
  ∃ n, s = replicate n 47%N ++ lstrip_slash s ∧ head (lstrip_slash s) ≠ Some 47%N.
Proof.
  induction s as [|c s (n & Hs & Hh)]; [by exists 0|]. simpl.
  destruct (c =? 47)%N eqn:Hc.
  - apply N.eqb_eq in Hc as ->. exists (S n). simpl. split; [by f_equal|done].
  - apply N.eqb_neq in Hc. exists 0. split; [done|]. simpl. congruence.
Qed.

(** X22. The address kept for the site is the one given (the argument, or
    the environment variable when the argument is missing or empty) less
    all its final slashes: it does not end with a slash, so that the
    address of the interface has a single slash before [wp-json]. *)
Theorem init_site_url_trailing_slashes (arg env : option pystr) :
  let given := match arg with Some (c :: s) => c :: s | _ => default [] env end in
  (∃ n, given = init_site_url arg env ++ replicate n 47%N)
  ∧ last (init_site_url arg env) ≠ Some 47%N
  ∧ rstrip_slash (init_site_url arg env) = init_site_url arg env
  ∧ api_base (init_site_url arg env) = init_site_url arg env ++ u "/wp-json/wp/v2".
Proof.
  intros given. unfold init_site_url. fold given. unfold rstrip_slash.
  destruct (lstrip_slash_spec (reverse given)) as (n & Hs & Hh).
  assert (given = reverse (lstrip_slash (reverse given)) ++ replicate n 47%N) as Hg.
  { rewrite <- (reverse_involutive given) at 1. rewrite Hs at 1.
    rewrite reverse_app. f_equal. clear. induction n as [|n IH]; [done|].
    simpl. rewrite reverse_cons, IH. clear.
    induction n as [|n IH]; [done|]. simpl. by rewrite IH. }
  split_and!.
  - by exists n.
  - by rewrite last_reverse.
  - rewrite reverse_involutive. f_equal.
    destruct (lstrip_slash (reverse given)) as [|c r] eqn:Hl; [done|]. simpl.
    destruct (c =? 47)%N eqn:Hc; [|done]. apply N.eqb_eq in Hc as ->. done.
  - done.
Qed.

(** * Uploading an image ([WordPressPublisher.upload_image]) *)

(** [os.path.basename]: what follows the last [/]. *)
Fixpoint basename_go (acc p : pystr) : pystr :=
  match p with
  | [] => acc
  | c :: r => if (c =? 47)%N then basename_go [] r else basename_go (acc ++ [c]) r
  end.

Definition basename (p : pystr) : pystr := basename_go [] p.

(** [os.path.splitext(p)[1]] for a name without [/]: from the last dot on,
    if a character other than a dot stands before it. [seen] tells whether
    such a character was read, [ext] is the extension so far. *)
Fixpoint ext_go (seen : bool) (ext : option pystr) (p : pystr) : pystr :=
  match p with
  | [] => default [] ext
  | c :: r =>
      if (c =? 46)%N then ext_go seen (if seen then Some [c] else ext) r
      else ext_go true ((λ e, e ++ [c]) <$> ext) r
  end.

Definition splitext_ext (p : pystr) : pystr := ext_go false None (basename p).

Definition mime_types : list (pystr * pystr) :=
  [ (u ".jpg", u "image/jpeg");
    (u ".jpeg", u "image/jpeg");
    (u ".png", u "image/png");
    (u ".gif", u "image/gif");
    (u ".webp", u "image/webp") ].

Fixpoint mime_get (ext : pystr) (table : list (pystr * pystr)) : pystr :=
  match table with
  | [] => u "application/octet-stream"
  | (k, v) :: rest => if bool_decide (k = ext) then v else mime_get ext rest
  end.

Section Media.

Variable str_lower : pystr -> pystr.
Variable requests_send : nat -> Request -> outcome Response.
Variable site_url : pystr.

(** [open(path, "rb")] and the reading of the file by [requests]: the bytes,
    or the exception raised. *)
Variable read_file : pystr -> outcome (list N).

(** The [n]-th HTTP request when it is a [requests.post] with [headers=]
    and [data=]. *)
Variable requests_post_data :
  nat -> pystr -> list (pystr * pystr) -> list N -> outcome Response.

(** [str(v)], as an f-string puts a value into a text. *)
Variable py_str : pyval -> pystr.

(** Lines 197-210: the content type sent for a path. *)
Definition mime_type_of (image_path : pystr) : pystr :=
  let filename := basename image_path in
  let ext := str_lower (splitext_ext filename) in
  mime_get ext mime_types.

Definition upload_headers (image_path : pystr) : list (pystr * pystr) :=
  [ (u "Content-Disposition",
     u "attachment; filename=" ++ dquote ++ basename image_path ++ dquote);
    (u "Content-Type", mime_type_of image_path) ].

Definition post_file (image_path : pystr) : M Response :=
  fun st =>
    match read_file image_path with
    | Raised e => (Raised e, st)
    | Ok data =>
        (requests_post_data (calls st) (api_base site_url ++ u "/media")
           (upload_headers image_path) data,
         {| ticks := ticks st; calls := S (calls st);
            ai_category_id := ai_category_id st; tag_ids := tag_ids st |})
    end.

Definition upload_image (image_path : pystr) (alt_text : pyval) : M pyval :=
  let* response := post_file image_path in
  if (status_code response =? 201)%Z then
    let* media := lift (json response) in
    let* _ :=
      if truthy alt_text then
        let* media_id := lift (subscript media (u "id")) in
        let* _ :=
          requests_call requests_send site_url POST
            (u "/media/" ++ py_str media_id)
            (VDict [(u "alt_text", alt_text)]) in
        ret tt
      else ret tt in
    let* _ := lift (subscript media (u "source_url")) in
    ret media
  else raise Exception (u "上传失败: " ++ text response).

Lemma basename_go_plain acc name :
  47%N ∉ name → basename_go acc name = acc ++ name.
Proof.
  revert acc. induction name as [|c name IH]; intros acc Hn.
  - simpl. by rewrite app_nil_r.
  - apply not_elem_of_cons in Hn as [Hc Hn]. simpl.
    rewrite (proj2 (N.eqb_neq c 47)) by done.
    rewrite IH by done. by rewrite <- app_assoc.
Qed.

Lemma basename_go_dir acc dir name :
  basename_go acc (dir ++ 47%N :: name) = basename_go [] name.
Proof.
  revert acc. induction dir as [|c dir IH]; intros acc; simpl; [done|].
  destruct (c =? 47)%N; apply IH.
Qed.

Lemma ext_go_no_dot seen ext p :
  46%N ∉ p → ext_go seen ext p = default [] ((λ e, e ++ p) <$> ext).
Proof.
  revert seen ext. induction p as [|c p IH]; intros seen ext Hp.
  - simpl. destruct ext; simpl; by rewrite ?app_nil_r.
  - apply not_elem_of_cons in Hp as [Hc Hp]. simpl.
    rewrite (proj2 (N.eqb_neq c 46)) by done. rewrite IH by done.
    destruct ext; simpl; [|done]. by rewrite <- app_assoc.
Qed.

Lemma ext_go_seen ext stem e :
  46%N ∉ e → ext_go true ext (stem ++ 46%N :: e) = 46%N :: e.
Proof.
  intros He. revert ext. induction stem as [|c stem IH]; intros ext; simpl.
  - by rewrite ext_go_no_dot.
  - destruct (c =? 46)%N; apply IH.
Qed.

Lemma ext_go_stem seen ext stem e :
  (∃ c, c ∈ stem ∧ c ≠ 46%N) → 46%N ∉ e →
  ext_go seen ext (stem ++ 46%N :: e) = 46%N :: e.
Proof.
  intros Hstem He. revert seen ext.
  induction stem as [|c stem IH]; intros seen ext.
  { destruct Hstem as (c & ?%elem_of_nil & _). done. }
  simpl. destruct (c =? 46)%N eqn:Hc.
  - apply N.eqb_eq in Hc as ->. apply IH.
    destruct Hstem as (c & [->|Hin]%elem_of_cons & Hne); [done|eauto].
  - by apply ext_go_seen.
Qed.

Lemma ext_go_hidden name :
  46%N ∉ name → ∀ dots, Forall (λ c, c = 46%N) dots →
  ext_go false None (dots ++ name) = [].
Proof.
  intros Hn dots Hd. induction Hd as [|d dots -> _ IH]; simpl.
  - by rewrite ext_go_no_dot.
  - exact IH.
Qed.

(** X18. The content type of an upload is found from the last component of
    the path alone: of a name that has a character other than a dot before
    its last dot, the extension is what stands from that dot on, whatever
    the directories are called, and the content type is the one listed for
    the lower-cased extension; a name made of leading dots and a rest
    without a dot (a hidden file) has no extension, its content type is
    the one listed for the lower-cased empty text. *)
Theorem mime_type_by_last_extension (dir stem e : pystr) :
  47%N ∉ stem → 47%N ∉ e → 46%N ∉ e →
  (∃ c, c ∈ stem ∧ c ≠ 46%N) →
  splitext_ext (dir ++ 47%N :: stem ++ 46%N :: e) = 46%N :: e
  ∧ mime_type_of (dir ++ 47%N :: stem ++ 46%N :: e)
    = mime_get (str_lower (46%N :: e)) mime_types
  ∧ mime_type_of (stem ++ 46%N :: e) = mime_get (str_lower (46%N :: e)) mime_types
  ∧ (∀ dots, Forall (λ c, c = 46%N) dots →
       mime_type_of (dir ++ 47%N :: dots ++ e) = mime_get (str_lower []) mime_types).
Proof.
  intros Hs He Hd Hstem.
  assert (47%N ∉ stem ++ 46%N :: e) as Hname.
  { intros [?|[?|?]%elem_of_cons]%elem_of_app; done. }
  assert (basename (dir ++ 47%N :: stem ++ 46%N :: e) = stem ++ 46%N :: e) as Hb.
  { unfold basename. by rewrite basename_go_dir, basename_go_plain. }
  assert (basename (stem ++ 46%N :: e) = stem ++ 46%N :: e) as Hb'.
  { unfold basename. by rewrite basename_go_plain. }
  assert (splitext_ext (stem ++ 46%N :: e) = 46%N :: e) as Hx.
  { unfold splitext_ext. rewrite Hb'. by apply ext_go_stem. }
  split_and!.
  - unfold splitext_ext. rewrite Hb. by apply ext_go_stem.
  - unfold mime_type_of. by rewrite Hb, Hx.
  - unfold mime_type_of. by rewrite Hb', Hx.
  - intros dots Hdots. unfold mime_type_of.
    assert (47%N ∉ dots ++ e) as Hde.
    { intros [Hin|?]%elem_of_app; [|done]. rewrite Forall_forall in Hdots.
      by apply Hdots in Hin. }
    assert (basename (dir ++ 47%N :: dots ++ e) = dots ++ e) as ->.
    { unfold basename. by rewrite basename_go_dir, basename_go_plain. }
    unfold splitext_ext.
    assert (basename (dots ++ e) = dots ++ e) as ->.
    { unfold basename. by rewrite basename_go_plain. }
    by rewrite (ext_go_hidden e Hd dots Hdots).
Qed.

(** X19. [upload_image] sends nothing when the file cannot be read and
    raises what the reading raised. An answer to the upload other than 201
    raises an exception with the text of the answer. After an answer 201
    with an object that has a ["source_url"], the object is returned: with
    a falsy alternative text after that one request, with a truthy one
    after a second request for the ["id"] of the object, whatever the status
    of the answer to that second request. *)
Theorem upload_image_flow (image_path : pystr) (alt_text : pyval) (st : St) :
  (∀ e, read_file image_path = Raised e →
     upload_image image_path alt_text st = (Raised e, st))
  ∧ (∀ data r, read_file image_path = Ok data →
       requests_post_data (calls st) (api_base site_url ++ u "/media")
         (upload_headers image_path) data = Ok r →
       (status_code r ≠ 201%Z →
        upload_image image_path alt_text st
        = (Raised (Raise Exception (u "上传失败: " ++ text r)), sent st 1))
       ∧ (status_code r = 201%Z →
          ∀ media src, json r = Ok (VDict media) →
            dict_get (u "source_url") media = Some src →
            (truthy alt_text = false →
             upload_image image_path alt_text st = (Ok (VDict media), sent st 1))
            ∧ (truthy alt_text = true →
               ∀ media_id r2, dict_get (u "id") media = Some media_id →
                 requests_send (S (calls st))
                   {| method := POST;
                      url := api_base site_url ++ u "/media/" ++ py_str media_id;
                      payload := VDict [(u "alt_text", alt_text)] |} = Ok r2 →
                 upload_image image_path alt_text st
                 = (Ok (VDict media), sent st 2)))).
Proof.
  split.
  - intros e He. unfold upload_image, post_file. unfold bind at 1. by rewrite He.
  - intros data r Hread Hpost.
    assert (post_file image_path st = (Ok r, sent st 1)) as Hfile.
    { unfold post_file, sent. by rewrite Hread, Hpost, Nat.add_1_r. }
    split.
    + intros Hne. unfold upload_image. unfold bind at 1. rewrite Hfile.
      by rewrite (proj2 (Z.eqb_neq _ _) Hne).
    + intros H201 media src Hj Hsrc. split.
      * intros Ht. unfold upload_image. unfold bind at 1. rewrite Hfile, H201, Ht.
        change (201 =? 201)%Z with true. cbv iota.
        unfold bind, ret, lift. rewrite Hj. cbn [subscript]. by rewrite Hsrc.
      * intros Ht media_id r2 Hid Hr2.
        unfold upload_image. unfold bind at 1. rewrite Hfile, H201, Ht.
        change (201 =? 201)%Z with true. cbv iota.
        unfold bind at 1, lift at 1. rewrite Hj.
        unfold bind at 1. unfold bind at 1. unfold lift at 1. cbn [subscript].
        rewrite Hid. unfold bind at 1. rewrite requests_call_spec.
        change (calls (sent st 1)) with (calls st + 1). rewrite Nat.add_1_r, Hr2.
        rewrite sent_sent. unfold bind, ret, lift. cbn [subscript]. by rewrite Hsrc.
Qed.

End Media.

(** * A concrete world

    Stand-ins for the library functions and a small world on which the
    statements above are evaluated. *)

Module Example.

(** [str.lower] on text whose cased letters are ASCII. *)
Definition lower_ascii (s : pystr) : pystr :=
  map (fun c => if ((65 <=? c) && (c <=? 90))%N then (c + 32)%N else c) s.

(** [html.unescape] on text without character references. *)
Definition unescape_plain (s : pystr) : pystr := s.

(** A stand-in for the digest: injective, and the first 12 characters
    tell the links of this world apart. *)
Definition digest (s : pystr) : pystr := reverse s.

Definition t0 : datetime :=
  of_fields {| tm_year := 2026; tm_mon := 11; tm_mday := 3;
               tm_hour := 10; tm_min := 0; tm_sec := 0 |}.

(** One second passes between two readings of the clock. *)
Definition clock (n : nat) : datetime := (t0 + Z.of_nat n * US_PER_SECOND)%Z.

Definition undated (title link : pystr) : RawEntry :=
  {| entry_title := Some title; entry_link := Some link;
     entry_summary := None; entry_description := None;
     published_parsed := None; updated_parsed := None |}.

Definition dated (title link : pystr) (t : struct_time) : RawEntry :=
  {| entry_title := Some title; entry_link := Some link;
     entry_summary := Some (u "<p>New  model</p>"); entry_description := None;
     published_parsed := Some t; updated_parsed := None |}.

Definition story (j : nat) : RawEntry :=
  undated (u "GPT update #" ++ str_of_nat j)
          (u "https://news.example/" ++ str_of_nat j).

(** 23:59:60, a leap second as [time.struct_time] can hold it. *)
Definition leap_second : struct_time :=
  {| tm_year := 2026; tm_mon := 11; tm_mday := 2;
     tm_hour := 23; tm_min := 59; tm_sec := 60 |}.

Definition nine_o_clock : struct_time :=
  {| tm_year := 2026; tm_mon := 11; tm_mday := 3;
     tm_hour := 9; tm_min := 0; tm_sec := 0 |}.

Definition leap_feed : list RawEntry :=
  [ dated (u "Claude agent ships") (u "https://lab.example/a") nine_o_clock;
    dated (u "LLM at midnight") (u "https://lab.example/b") leap_second;
    dated (u "OpenAI roadmap") (u "https://lab.example/c") nine_o_clock ].

(** The first source has twelve stories, the second one repeats the link of
    one of them under another title, the third one cannot be read, the
    others are empty. *)
Definition feedparser_parse (url : pystr) : outcome (list RawEntry) :=
  if decide (url = u "https://hnrss.org/newest?q=AI+agent+OR+LLM+OR+GPT+OR+Claude")
  then Ok (story <$> seq 0 12)
  else if decide (url = u "https://www.technologyreview.com/topic/artificial-intelligence/feed")
  then Ok [undated (u "OpenAI ships a GPT update") (u "https://news.example/3")]
  else if decide (url = u "https://openai.com/blog/rss.xml")
  then Raised (Raise Exception (u "connection reset"))
  else if decide (url = u "https://feeds.example/leap")
  then Ok leap_feed
  else Ok [].

(** A site that accepts everything. *)
Definition requests_send (n : nat) (r : Request) : outcome Response :=
  match method r with
  | GET =>
      Ok {| status_code := 200; text := [];
            json := Ok (VDict [(u "name", VStr (u "editor"))]) |}
  | POST =>
      Ok {| status_code := 201; text := [];
            json := Ok (VDict [(u "id", VInt (Z.of_nat n));
                               (u "link", VStr (u "https://blog.example/?p=" ++ str_of_nat n))]) |}
  end.

Definition site_url : pystr := u "https://blog.example".

Definition st0 : St :=
  {| ticks := 0; calls := 0; ai_category_id := VNone; tag_ids := [] |}.

End Example.

Import Example.

Global Instance NewsItem_eq_dec : EqDecision NewsItem.
Proof. solve_decision. Defined.

(** ** The batch run of the example: twelve items, ten posts of five
       requested *)

Definition run_st_a : St := (test_connection requests_send site_url st0).2.

Definition run_st_b : St :=
  (setup_taxonomy lower_ascii requests_send site_url run_st_a).2.

Definition run_fetch (hours : Z) : outcome (list NewsItem) * St :=
  fetch_all clock feedparser_parse lower_ascii unescape_plain digest hours run_st_b.

Definition run_items (hours : Z) : list NewsItem :=
  match (run_fetch hours).1 with
  | Ok l => l
  | Raised _ => []
  end.

Lemma publish_multiple_batches_witness :
  length (run_items 240) = 12
  ∧ ∃ outcomes st',
      length outcomes = 2
      ∧ publish_multiple clock feedparser_parse lower_ascii unescape_plain digest
          requests_send site_url 10 24 5 st0
        = (Ok (result_of <$> outcomes), st').
Proof.
  split; [vm_compute; reflexivity|].
  assert (0 < 5)%Z as H1 by lia.
  assert (0 ≤ 10)%Z as H2 by lia.
  assert (test_connection requests_send site_url st0 = (Ok true, run_st_a)) as H3
    by (vm_compute; reflexivity).
  assert (setup_taxonomy lower_ascii requests_send site_url run_st_a
          = (Ok tt, run_st_b)) as H4 by (vm_compute; reflexivity).
  assert (fetch_all clock feedparser_parse lower_ascii unescape_plain digest
            (24 * 10) run_st_b = (Ok (run_items 240), (run_fetch 240).2)) as H5
    by (vm_compute; reflexivity).
  destruct (publish_multiple_batches clock feedparser_parse lower_ascii
              unescape_plain digest requests_send site_url 10 24 5
              st0 run_st_a run_st_b (run_fetch 240).2 (run_items 240)
              H1 H2 H3 H4 H5)
    as (_ & _ & _ & _ & _ & _ & _ & outcomes & st' & _ & Hlen & Hrun).
  exists outcomes, st'. split; [|exact Hrun].
  etransitivity; [exact Hlen|]. vm_compute. reflexivity.
Defined.

(** C1 as stated fails: one post of five requested, twelve items; one batch
    is published, not [floor(12 / 5) = 2]. *)
Lemma publish_multiple_batch_count_counterexample :
  ¬ (∀ (clock : nat → datetime) (feedparser_parse : pystr → outcome (list RawEntry))
       (str_lower html_unescape md5_hexdigest : pystr → pystr)
       (requests_send : nat → Request → outcome Response) (site_url : pystr)
       (count hours_per_batch items_per_post : Z) (st st_a st_b st_c st' : St)
       (all_items : list NewsItem) (results : list pyval),
       (0 < items_per_post)%Z → (0 ≤ count)%Z →
       test_connection requests_send site_url st = (Ok true, st_a) →
       setup_taxonomy str_lower requests_send site_url st_a = (Ok tt, st_b) →
       fetch_all clock feedparser_parse str_lower html_unescape md5_hexdigest
         (hours_per_batch * count) st_b = (Ok all_items, st_c) →
       publish_multiple clock feedparser_parse str_lower html_unescape
         md5_hexdigest requests_send site_url count hours_per_batch
         items_per_post st = (Ok results, st') →
       length results = Z.to_nat (Z.of_nat (length all_items) / items_per_post)).
Proof.
  intros H.
  pose (run := publish_multiple clock feedparser_parse lower_ascii unescape_plain
                 digest requests_send site_url 1 24 5 st0).
  specialize (H clock feedparser_parse lower_ascii unescape_plain digest
                requests_send site_url 1%Z 24%Z 5%Z st0 run_st_a run_st_b
                (run_fetch 24).2 run.2 (run_items 24)
                (match run.1 with Ok l => l | Raised _ => [] end)).
  assert (length (match run.1 with Ok l => l | Raised _ => [] end) = 1) as Hone
    by (vm_compute; reflexivity).
  rewrite Hone in H.
  assert (Z.to_nat (Z.of_nat (length (run_items 24)) / 5) = 2) as Htwo
    by (vm_compute; reflexivity).
  rewrite Htwo in H.
  discriminate H; try lia; vm_compute; reflexivity.
Qed.

(** C2 as stated fails: of three entries the second carries a leap second;
    the third is lost with it. *)
Lemma fetch_rss_entry_isolation_counterexample :
  ¬ (∀ (clock : nat → datetime) (feedparser_parse : pystr → outcome (list RawEntry))
       (html_unescape : pystr → pystr) (url source_name : pystr) (st st' : St)
       (entries : list RawEntry) (items : list NewsItem),
       feedparser_parse url = Ok entries →
       fetch_rss clock feedparser_parse html_unescape url source_name st
         = (Ok items, st') →
       length items
       = length (filter (λ e, malformed e = false) (take 20 entries))).
Proof.
  intros H.
  pose (run := fetch_rss clock feedparser_parse unescape_plain
                 (u "https://feeds.example/leap") (u "Lab") st0).
  specialize (H clock feedparser_parse unescape_plain
                (u "https://feeds.example/leap") (u "Lab") st0 run.2 leap_feed
                (match run.1 with Ok l => l | Raised _ => [] end)).
  assert (length (match run.1 with Ok l => l | Raised _ => [] end) = 1) as Hone
    by (vm_compute; reflexivity).
  rewrite Hone in H.
  assert (length (filter (λ e, malformed e = false) (take 20 leap_feed)) = 2)
    as Htwo by (vm_compute; reflexivity).
  rewrite Htwo in H.
  discriminate H; vm_compute; reflexivity.
Qed.

(** ** One fetch of the example, with a window of 24 hours *)

Definition day_cutoff : datetime := (t0 - 24 * 3600 * US_PER_SECOND)%Z.

Lemma fetch_all_corpus_membership_witness :
  ∃ raw corpus st',
    fetch_all clock feedparser_parse lower_ascii unescape_plain digest 24 st0
      = (Ok corpus, st')
    ∧ length raw = 13
    ∧ length corpus = 12
    ∧ ∀ x, x ∈ corpus → x ∈ raw ∧ passes_filters lower_ascii day_cutoff x = true.
Proof.
  assert (sub_hours (clock (ticks st0)) 24 = Ok day_cutoff) as H
    by (vm_compute; reflexivity).
  destruct (fetch_all_corpus_membership clock feedparser_parse lower_ascii
              unescape_plain digest 24 st0 day_cutoff H)
    as (raw & corpus & st' & Hraw & Hall & Hsub & _).
  exists raw, corpus, st'. split_and!; [exact Hall| | |exact Hsub].
  - assert (Ok raw = (fetched_items clock feedparser_parse unescape_plain
                        RSS_SOURCES (advance st0 1)).1) as Heq by (by rewrite Hraw).
    vm_compute in Heq. injection Heq as ->. reflexivity.
  - assert (Ok corpus = (fetch_all clock feedparser_parse lower_ascii
                           unescape_plain digest 24 st0).1) as Heq by (by rewrite Hall).
    vm_compute in Heq. injection Heq as ->. reflexivity.
Defined.

(** The item the second source reports under the link of story 3. *)
Definition repeated_story : NewsItem :=
  {| title := u "OpenAI ships a GPT update";
     link := u "https://news.example/3";
     summary := [];
     source := u "MIT Tech Review AI";
     published := clock 13 |}.

(** C3 as stated fails: the repeated story is fetched and passes both
    tests, and is not in the list [fetch_all] returns. *)
Lemma fetch_all_filter_conjunction_counterexample :
  ¬ (∀ (clock : nat → datetime) (feedparser_parse : pystr → outcome (list RawEntry))
       (str_lower html_unescape md5_hexdigest : pystr → pystr)
       (hours : Z) (st st' : St) (cutoff : datetime) (raw corpus : list NewsItem),
       sub_hours (clock (ticks st)) hours = Ok cutoff →
       fetched_items clock feedparser_parse html_unescape RSS_SOURCES (advance st 1)
         = (Ok raw, st') →
       fetch_all clock feedparser_parse str_lower html_unescape md5_hexdigest
         hours st = (Ok corpus, st') →
       ∀ x, x ∈ raw → (x ∈ corpus ↔ passes_filters str_lower cutoff x = true)).
Proof.
  intros H.
  pose (fetched := fetched_items clock feedparser_parse unescape_plain
                     RSS_SOURCES (advance st0 1)).
  pose (run := fetch_all clock feedparser_parse lower_ascii unescape_plain
                 digest 24 st0).
  pose (raw := match fetched.1 with Ok l => l | Raised _ => [] end).
  pose (corpus := match run.1 with Ok l => l | Raised _ => [] end).
  assert (bool_decide (repeated_story ∈ raw) = true) as Hraw
    by (vm_compute; reflexivity).
  assert (bool_decide (repeated_story ∈ corpus) = false) as Hcorpus
    by (vm_compute; reflexivity).
  assert (passes_filters lower_ascii day_cutoff repeated_story = true) as Hpass
    by (vm_compute; reflexivity).
  apply bool_decide_eq_true in Hraw. apply bool_decide_eq_false in Hcorpus.
  assert (sub_hours (clock (ticks st0)) 24 = Ok day_cutoff) as H1
    by (vm_compute; reflexivity).
  assert (fetched_items clock feedparser_parse unescape_plain RSS_SOURCES
            (advance st0 1) = (Ok raw, run.2)) as H2 by (vm_compute; reflexivity).
  assert (fetch_all clock feedparser_parse lower_ascii unescape_plain digest 24 st0
          = (Ok corpus, run.2)) as H3 by (vm_compute; reflexivity).
  pose proof (H clock feedparser_parse lower_ascii unescape_plain digest 24%Z st0
                run.2 day_cutoff raw corpus H1 H2 H3 repeated_story Hraw)
    as [_ Hback].
  exact (Hcorpus (Hback Hpass)).
Qed.

(** C4 as stated fails: the same call a minute later gives another
    content. *)
Lemma format_as_blog_post_clock_counterexample :
  ¬ (∀ (clock : nat → datetime) (items : list NewsItem) (max_items : Z)
       (date : datetime) (st1 st2 : St),
       (format_as_blog_post clock items max_items (Some date) st1).1
       = (format_as_blog_post clock items max_items (Some date) st2).1).
Proof.
  intros H. specialize (H clock [] 15%Z t0 st0 (advance st0 60)).
  apply (f_equal (λ o, match o with
                       | Ok (_, content, _) => take 12 (reverse content)
                       | Raised _ => []
                       end)) in H.
  vm_compute in H. discriminate H.
Qed.

(** ** The first story of the example, read right after the cutoff was
       computed *)




(** ** The same story on a clock that was put back

    The clock is put back by an hour after its first reading, as at the
    end of daylight saving time: [datetime.now()] is the local time. *)

Definition clock_set_back (n : nat) : datetime :=
  match n with
  | O => t0
  | S _ => (t0 - 3600 * US_PER_SECOND)%Z
  end.




Example set_back_clock_empty_corpus :
  (fetch_all clock_set_back feedparser_parse lower_ascii unescape_plain digest 0 st0).1
  = Ok [].
Proof. vm_compute. reflexivity. Qed.

(** ** Further runs *)

(** Three entries of one source, 1, 30 and 2 hours old, titled "GPT",
    "weather" and "Claude agent": with a window of 24 hours the first and
    the third make the corpus, the newer one first. *)
Definition three_entries (url : pystr) : outcome (list RawEntry) :=
  if decide (url = u "https://openai.com/blog/rss.xml") then
    Ok [ dated (u "GPT") (u "L1")
           {| tm_year := 2026; tm_mon := 11; tm_mday := 3;
              tm_hour := 9; tm_min := 0; tm_sec := 0 |};
         dated (u "weather") (u "L2")
           {| tm_year := 2026; tm_mon := 11; tm_mday := 2;
              tm_hour := 4; tm_min := 0; tm_sec := 0 |};
         dated (u "Claude agent") (u "L3")
           {| tm_year := 2026; tm_mon := 11; tm_mday := 3;
              tm_hour := 8; tm_min := 0; tm_sec := 0 |} ]
  else Ok [].

Example three_entries_corpus :
  (fetch_all clock three_entries lower_ascii unescape_plain digest 24 st0).1
  = Ok [ {| title := u "GPT"; link := u "L1"; summary := u "New model";
            source := u "OpenAI Blog"; published := (t0 - 3600 * US_PER_SECOND)%Z |};
         {| title := u "Claude agent"; link := u "L3"; summary := u "New model";
            source := u "OpenAI Blog"; published := (t0 - 7200 * US_PER_SECOND)%Z |} ].
Proof. vm_compute. reflexivity. Qed.

(** The third source cannot be read and the fourth one has a story: the
    story is fetched. *)
Definition broken_then_good (url : pystr) : outcome (list RawEntry) :=
  if decide (url = u "https://openai.com/blog/rss.xml") then
    Raised (Raise Exception (u "connection reset"))
  else if decide (url = u "https://blog.google/technology/ai/rss/") then
    Ok [dated (u "Gemini agent") (u "L4") nine_o_clock]
  else Ok [].

Example source_after_unreadable_one :
  (fetch_all clock broken_then_good lower_ascii unescape_plain digest 24 st0).1
  = Ok [ {| title := u "Gemini agent"; link := u "L4"; summary := u "New model";
            source := u "Google AI Blog";
            published := (t0 - 3600 * US_PER_SECOND)%Z |} ].
Proof. vm_compute. reflexivity. Qed.

(** Windows [timedelta] cannot hold, and one the calendar cannot. *)
Example window_too_large :
  fetch_all clock feedparser_parse lower_ascii unescape_plain digest
    1000000000000 st0
  = (Raised (Raise OverflowError (u "Python int too large to convert to C int")),
     advance st0 1)
  ∧ fetch_all clock feedparser_parse lower_ascii unescape_plain digest
      (-23999999977) st0
    = (Raised (Raise OverflowError
                 (u "days=-1000000000; must have magnitude <= 999999999")),
       advance st0 1)
  ∧ fetch_all clock feedparser_parse lower_ascii unescape_plain digest
      23999999999 st0
    = (Raised (Raise OverflowError (u "date value out of range")), advance st0 1).
Proof. split_and!; vm_compute; reflexivity. Qed.

(** A site that rejects the ninth request, the second post of a batch
    run. *)
Definition flaky_send (n : nat) (r : Request) : outcome Response :=
  if decide (n = 8) then
    Ok {| status_code := 500; text := u "boom"; json := Raised (Raise ValueError []) |}
  else requests_send n r.

Example second_post_fails :
  match (publish_multiple clock feedparser_parse lower_ascii unescape_plain digest
           flaky_send site_url 10 24 4 st0).1 with
  | Ok results =>
      is_error_result <$> results = [false; true; false]
      ∧ results !! 1 = Some (VDict [(u "error", VStr (u "发布失败: 500 - boom"))])
      ∧ success_count results = Ok 2
  | Raised _ => False
  end.
Proof. vm_compute. done. Qed.

(** A batch size of zero: the count is kept, the first slice is empty and
    the loop ends at once; nothing is divided. *)
Example zero_items_per_post :
  (publish_multiple clock feedparser_parse lower_ascii unescape_plain digest
     requests_send site_url 10 24 0 st0).1 = Ok [].
Proof. vm_compute. reflexivity. Qed.

(** [batch_publish] with a post that lacks its content and one that is
    complete. *)
Example batch_publish_mixed :
  match (batch_publish requests_send site_url
           [ [(u "title", VStr (u "Only a title"))];
             [(u "title", VStr (u "Complete")); (u "content", VStr (u "<p>text</p>"))] ]
           st0).1 with
  | Ok results =>
      is_error_result <$> results = [true; false]
      ∧ (results !! 0 ≫= λ r, match r with
                               | VDict d => dict_get (u "title") d
                               | _ => None
                               end) = Some (VStr (u "Only a title"))
  | Raised _ => False
  end.
Proof. vm_compute. done. Qed.

(** ** Runs for the further properties *)

Lemma format_as_blog_post_first_items_witness :
  format_as_blog_post clock (run_items 240) 5 None st0
  = format_as_blog_post clock (take 5 (run_items 240)) 5 None st0.
Proof.
  assert (0 ≤ 5)%Z as H by lia.
  exact (proj1 (format_as_blog_post_first_items clock (run_items 240) 5 None st0 H)).
Defined.

Lemma find_by_name_first_match_witness :
  find_by_name lower_ascii (u "AI Agent")
    [ VDict [(u "id", VInt 3); (u "name", VStr (u "Agents"))];
      VDict [(u "id", VInt 7); (u "name", VStr (u "ai agent"))];
      VDict [(u "id", VInt 9); (u "name", VStr (u "AI AGENT"))] ]
  = Ok (VDict [(u "id", VInt 7); (u "name", VStr (u "ai agent"))]).
Proof.
  assert (Forall (λ t, ∃ s, term_name t = Some s
                          ∧ lower_ascii s ≠ lower_ascii (u "AI Agent"))
            [VDict [(u "id", VInt 3); (u "name", VStr (u "Agents"))]]) as H.
  { constructor; [|constructor]. exists (u "Agents"). split; [reflexivity|].
    vm_compute. discriminate. }
  apply (proj1 (find_by_name_first_match lower_ascii (u "AI Agent")
                  [VDict [(u "id", VInt 3); (u "name", VStr (u "Agents"))]]
                  [VDict [(u "id", VInt 9); (u "name", VStr (u "AI AGENT"))]]
                  (VDict [(u "id", VInt 7); (u "name", VStr (u "ai agent"))]) H)
           (u "ai agent")).
  - reflexivity.
  - vm_compute. reflexivity.
Defined.

(** A site on which the category exists and cannot be looked up. *)
Definition term_exists_answer : Response :=
  {| status_code := 400; text := u "{code: term_exists}";
     json := Raised (Raise ValueError []) |}.

Definition not_found_answer : Response :=
  {| status_code := 404; text := []; json := Raised (Raise ValueError []) |}.

Definition lost_send (n : nat) (r : Request) : outcome Response :=
  match n with
  | 0 => Ok term_exists_answer
  | _ => Ok not_found_answer
  end.

Lemma setup_taxonomy_lost_category_witness :
  setup_taxonomy lower_ascii lost_send site_url st0
  = (Raised (Raise TypeError (u "'NoneType' object is not subscriptable")),
     sent st0 2).
Proof.
  apply (setup_taxonomy_lost_category lower_ascii lost_send site_url st0
           term_exists_answer not_found_answer).
  - intros req. reflexivity.
  - reflexivity.
  - vm_compute. reflexivity.
  - intros req. reflexivity.
  - left. simpl. lia.
Defined.

(** A site that cannot be reached. *)
Definition down_send (n : nat) (r : Request) : outcome Response :=
  Raised (Raise RequestException (u "connection refused")).

Lemma unreachable_site_aborts_witness :
  publish_multiple clock feedparser_parse lower_ascii unescape_plain digest
    down_send site_url 10 24 5 st0 = (Ok [], sent st0 1)
  ∧ publish_daily_news clock feedparser_parse lower_ascii unescape_plain digest
      down_send site_url 24 15 (u "publish") st0
    = (Ok VNone, sent (advance st0 1) 1).
Proof.
  apply unreachable_site_aborts. vm_compute. reflexivity.
Defined.

(** The daily run of the example. *)
Definition daily_st_a : St := (test_connection requests_send site_url (advance st0 1)).2.

Definition daily_st_b : St :=
  (setup_taxonomy lower_ascii requests_send site_url daily_st_a).2.

Definition daily_fetch : outcome (list NewsItem) * St :=
  fetch_all clock feedparser_parse lower_ascii unescape_plain digest 24 daily_st_b.

Definition daily_items : list NewsItem :=
  match daily_fetch.1 with
  | Ok l => l
  | Raised _ => []
  end.

Lemma publish_daily_news_outcome_witness :
  (publish_daily_news clock feedparser_parse lower_ascii unescape_plain digest
     requests_send site_url 24 15 (u "draft") st0).2
  = sent (advance daily_fetch.2 2) 1.
Proof.
  assert (test_connection requests_send site_url (advance st0 1)
          = (Ok true, daily_st_a)) as H1 by (vm_compute; reflexivity).
  assert (setup_taxonomy lower_ascii requests_send site_url daily_st_a
          = (Ok tt, daily_st_b)) as H2 by (vm_compute; reflexivity).
  assert (fetch_all clock feedparser_parse lower_ascii unescape_plain digest 24
            daily_st_b = (Ok daily_items, daily_fetch.2)) as H3
    by (vm_compute; reflexivity).
  assert (daily_items ≠ []) as Hne by (vm_compute; discriminate).
  destruct (proj2 (publish_daily_news_outcome clock feedparser_parse lower_ascii
                     unescape_plain digest requests_send site_url 24 15 (u "draft")
                     st0 daily_st_a daily_st_b daily_fetch.2 daily_items H1 H2 H3) Hne)
    as (title & content & excerpt & _ & _ & Hst).
  exact Hst.
Defined.

(** The daily run returns the post the site answered with; it is the
    eighth request, after the probe, the category and the five tags, and
    carries the status asked for. *)
Example daily_run_post :
  (publish_daily_news clock feedparser_parse lower_ascii unescape_plain digest
     requests_send site_url 24 15 (u "draft") st0).1
  = Ok (VDict [(u "id", VInt 7); (u "link", VStr (u "https://blog.example/?p=7"))]).
Proof. vm_compute. reflexivity. Qed.

(** A second [setup_taxonomy] on the same object doubles the tags. *)
Example setup_taxonomy_twice :
  length (tag_ids (setup_taxonomy lower_ascii requests_send site_url run_st_b).2) = 10.
Proof. vm_compute. reflexivity. Qed.

(** Tags across line breaks, an empty pair of brackets and an unclosed
    bracket. *)
Example clean_html_sample :
  _clean_html unescape_plain
    (u "  <p class='x'>Agents
   are <b>here</b></p> <> 1 < 2 ")
  = u "Agents are here <> 1 < 2".
Proof. vm_compute. reflexivity. Qed.

(** [str] on the values put into a path here: integers and strings. *)
Definition str_of_pyval_int (v : pyval) : pystr :=
  match v with
  | VInt n => str_of_Z n
  | VStr s => s
  | _ => []
  end.

(** An upload: the directory has a dot in its name, the extension is in
    capitals. *)
Lemma mime_type_by_last_extension_witness :
  mime_type_of lower_ascii (u "/srv/pics.d/photo.JPG") = u "image/jpeg".
Proof.
  assert (47%N ∉ u "photo") as H1 by (apply (bool_decide_unpack _); vm_compute; exact I).
  assert (47%N ∉ u "JPG") as H2 by (apply (bool_decide_unpack _); vm_compute; exact I).
  assert (46%N ∉ u "JPG") as H3 by (apply (bool_decide_unpack _); vm_compute; exact I).
  assert (∃ c, c ∈ u "photo" ∧ c ≠ 46%N) as H4.
  { exists 112%N. split; [|discriminate].
    apply (bool_decide_unpack _). vm_compute. exact I. }
  pose proof (proj1 (proj2 (mime_type_by_last_extension lower_ascii
                              (u "/srv/pics.d") (u "photo") (u "JPG") H1 H2 H3 H4)))
    as H.
  etransitivity; [|etransitivity; [exact H|vm_compute; reflexivity]].
  f_equal.
Defined.

Definition media_answer : Response :=
  {| status_code := 201; text := [];
     json := Ok (VDict [(u "id", VInt 41);
                        (u "source_url", VStr (u "https://blog.example/photo.jpg"))]) |}.

(** The upload is accepted and the request for the alternative text is
    answered with status 500: the media object is returned all the same. *)
Example upload_image_alt_text_rejected :
  upload_image lower_ascii
    (fun _ _ => Ok {| status_code := 500; text := u "no"; json := Raised (Raise ValueError []) |})
    site_url
    (fun _ => Ok [255; 216; 255]%N)
    (fun _ _ _ _ => Ok media_answer)
    str_of_pyval_int
    (u "/srv/pics.d/photo.JPG") (VStr (u "A photo")) st0
  = (json media_answer, sent st0 2).
Proof. vm_compute. reflexivity. Qed.

(** The three entries of above fetched with a window of 2 and of 24
    hours. *)
Definition narrow_fetch : outcome (list NewsItem) * St :=
  fetch_all clock three_entries lower_ascii unescape_plain digest 2 st0.

Definition wide_fetch : outcome (list NewsItem) * St :=
  fetch_all clock three_entries lower_ascii unescape_plain digest 24 st0.

Definition corpus_of (run : outcome (list NewsItem) * St) : list NewsItem :=
  match run.1 with
  | Ok l => l
  | Raised _ => []
  end.

Lemma fetch_all_window_monotone_witness :
  length (corpus_of narrow_fetch) = 2
  ∧ ∀ x, x ∈ corpus_of narrow_fetch →
      ∃ y, y ∈ corpus_of wide_fetch ∧ id digest y = id digest x.
Proof.
  split; [vm_compute; reflexivity|].
  assert (2 ≤ 24)%Z as H by lia.
  assert (fetch_all clock three_entries lower_ascii unescape_plain digest 2 st0
          = (Ok (corpus_of narrow_fetch), narrow_fetch.2)) as H1
    by (vm_compute; reflexivity).
  assert (fetch_all clock three_entries lower_ascii unescape_plain digest 24 st0
          = (Ok (corpus_of wide_fetch), wide_fetch.2)) as H2
    by (vm_compute; reflexivity).
  exact (proj2 (fetch_all_window_monotone clock three_entries lower_ascii
                  unescape_plain digest 2 24 st0 (corpus_of narrow_fetch)
                  (corpus_of wide_fetch) narrow_fetch.2 wide_fetch.2 H H1 H2)).
Defined.
